(** * Keyboard shortcut manager (services/keyboardShortcuts.ts)

    A shallow embedding of [KeyboardShortcutManager]: the registry of
    shortcuts keyed by a canonical string, the listening toggle on the
    document, the keydown dispatch and the display formatter.

    Conventions of the embedding.
    - A JavaScript string is a [string]: the UTF-8 bytes of its text.  The
      code only concatenates, compares and case-maps strings, and UTF-8 is
      injective and compatible with concatenation, so nothing is lost.
    - [toLowerCase], [toUpperCase] are host builtins: they are an interface
      ([HostStrings]) fixed on Basic Latin text, where every host agrees.
    - [undefined] is [None]; an optional field [f?: T] is an [option T].
    - A method is a computation [M A] over the [World]: the manager's own
      fields, the document's keydown listeners, the navigator's platform and
      the log of calls made to the host (listener attach and detach, event
      suppression, handler invocation). *)

From Stdlib Require Import String Ascii List Bool Arith ZArith Lia.
Import ListNotations.

Local Open Scope string_scope.
Local Open Scope list_scope.

(* ================================================================== *)
(** ** Host strings *)

Definition is_basic_latin (c : ascii) : bool := Nat.ltb (nat_of_ascii c) 128.

Definition latin_lower_char (c : ascii) : ascii :=
  let n := nat_of_ascii c in
  if andb (Nat.leb 65 n) (Nat.leb n 90) then ascii_of_nat (n + 32) else c.

Definition latin_upper_char (c : ascii) : ascii :=
  let n := nat_of_ascii c in
  if andb (Nat.leb 97 n) (Nat.leb n 122) then ascii_of_nat (n - 32) else c.

Fixpoint string_forall (p : ascii -> bool) (s : string) : bool :=
  match s with
  | EmptyString => true
  | String c r => andb (p c) (string_forall p r)
  end.

Fixpoint string_map (f : ascii -> ascii) (s : string) : string :=
  match s with
  | EmptyString => EmptyString
  | String c r => String (f c) (string_map f r)
  end.

Definition basic_latin (s : string) : bool := string_forall is_basic_latin s.
Definition latin_lower (s : string) : string := string_map latin_lower_char s.
Definition latin_upper (s : string) : string := string_map latin_upper_char s.

(** The two case mappings of [String.prototype].  They are not locale
    sensitive, and on Basic Latin text they map A-Z to a-z (resp. a-z to
    A-Z) and leave every other character alone. *)
Class HostStrings : Type := {
  toLowerCase : string -> string;
  toUpperCase : string -> string;
  toLowerCase_basic_latin :
    forall s, basic_latin s = true -> toLowerCase s = latin_lower s;
  toUpperCase_basic_latin :
    forall s, basic_latin s = true -> toUpperCase s = latin_upper s
}.

(** A host whose case mappings touch Basic Latin letters only. *)
#[export] Instance basic_latin_host : HostStrings := {|
  toLowerCase := latin_lower;
  toUpperCase := latin_upper;
  toLowerCase_basic_latin := fun s _ => eq_refl;
  toUpperCase_basic_latin := fun s _ => eq_refl
|}.

(** [String.prototype.indexOf]: position of the first occurrence, or -1. *)
Definition indexOf (s pat : string) : Z :=
  match String.index 0 pat s with
  | Some n => Z.of_nat n
  | None => (-1)%Z
  end.

(** [Array.prototype.join]. *)
Definition join (sep : string) (parts : list string) : string :=
  String.concat sep parts.

(** [Array.prototype.push], as the statement [parts.push(x)]. *)
Definition push (parts : list string) (x : string) : list string :=
  parts ++ [x].

(* ================================================================== *)
(** ** Data *)

(** [action: () => void].  A handler is a closure of the caller; the model
    keeps its identity and records each call of it. *)
Definition Handler := nat.

(** [interface ShortcutAction].  TypeScript declares [key: string], but
    types are erased at run time and [getShortcutKey] itself guards on the
    field, so the model keeps the run-time possibility of an object with no
    [key]: [None] is [undefined]. *)
Record ShortcutAction : Type := mkShortcutAction {
  key : option string;
  ctrlKey : option bool;
  altKey : option bool;
  shiftKey : option bool;
  metaKey : option bool;
  description : string;
  action : Handler
}.

(** [Partial<ShortcutAction>]: every field optional. *)
Module Partial.
Record t : Type := mk {
  key : option string;
  ctrlKey : option bool;
  altKey : option bool;
  shiftKey : option bool;
  metaKey : option bool;
  description : option string;
  action : option Handler
}.
End Partial.

(** A [ShortcutAction] passed where a [Partial<ShortcutAction>] is expected
    (the same object, seen at the wider type). *)
Definition asPartial (s : ShortcutAction) : Partial.t :=
  Partial.mk (key s) (ctrlKey s) (altKey s) (shiftKey s) (metaKey s)
             (Some (description s)) (Some (action s)).

(** The event target, as far as [handleKeyDown] looks at it. *)
Record HTMLElement : Type := mkHTMLElement {
  tagName : string;
  isContentEditable : bool
}.

Module KeyboardEvent.
Record t : Type := mk {
  key : string;
  ctrlKey : bool;
  altKey : bool;
  shiftKey : bool;
  metaKey : bool;
  target : HTMLElement
}.
End KeyboardEvent.

(** JavaScript truthiness of an optional boolean and of an optional string
    ([undefined], [false] and the empty string are falsy). *)
Definition truthy_flag (b : option bool) : bool :=
  match b with
  | Some true => true
  | _ => false
  end.

Definition truthy_string (s : option string) : bool :=
  match s with
  | Some EmptyString => false
  | Some (String _ _) => true
  | None => false
  end.

(* ================================================================== *)
(** ** [Map<string, V>]

    A JavaScript [Map] keeps its entries in insertion order; [set] on a
    key already there replaces the value in place, and [delete] removes
    the entry of the key. *)
Module JsMap.
Section Ops.
Context {V : Type}.

Definition t := list (string * V).

Definition empty : t := [].

Fixpoint get (m : t) (k : string) : option V :=
  match m with
  | [] => None
  | (k', v) :: r => if String.eqb k' k then Some v else get r k
  end.

Fixpoint set (m : t) (k : string) (v : V) : t :=
  match m with
  | [] => [(k, v)]
  | (k', v') :: r =>
      if String.eqb k' k then (k, v) :: r else (k', v') :: set r k v
  end.

Fixpoint delete (m : t) (k : string) : t :=
  match m with
  | [] => []
  | (k', v') :: r =>
      if String.eqb k' k then r else (k', v') :: delete r k
  end.

Definition keys (m : t) : list string := map fst m.
Definition values (m : t) : list V := map snd m.
Definition size (m : t) : nat := length m.
End Ops.
Arguments t V : clear implicits.
End JsMap.

(* ================================================================== *)
(** ** The canonical key *)

Section CanonicalKey.
Context {host : HostStrings}.

(** [private getShortcutKey(shortcut: Partial<ShortcutAction>): string] *)
Definition getShortcutKey (shortcut : Partial.t) : string :=
  let parts := [] in
  let parts :=
    if truthy_flag (Partial.ctrlKey shortcut) then push parts "ctrl" else parts in
  let parts :=
    if truthy_flag (Partial.altKey shortcut) then push parts "alt" else parts in
  let parts :=
    if truthy_flag (Partial.shiftKey shortcut) then push parts "shift" else parts in
  let parts :=
    if truthy_flag (Partial.metaKey shortcut) then push parts "meta" else parts in
  let parts :=
    match Partial.key shortcut with
    | Some k =>
        if truthy_string (Some k) then push parts (toLowerCase k) else parts
    | None => parts
    end in
  join "+" parts.
End CanonicalKey.

(* ================================================================== *)
(** ** The world of a method call *)

(** The fields of a [KeyboardShortcutManager] instance. *)
Record KeyboardShortcutManager : Type := mkManager {
  shortcuts : JsMap.t ShortcutAction;
  isListening : bool
}.

(** A keydown listener of the document: the manager's own bound
    [handleKeyDown] (one function object, made in the constructor), or a
    listener of other code. *)
Inductive Listener : Type :=
| BoundHandleKeyDown
| Foreign (id : nat).

Definition Listener_eq_dec (a b : Listener) : {a = b} + {a <> b}.
Proof. decide equality. apply Nat.eq_dec. Defined.

(** The calls the manager makes to its host. *)
Inductive HostCall : Type :=
| AddEventListener (l : Listener)
| RemoveEventListener (l : Listener)
| PreventDefault
| StopPropagation
| CallAction (h : Handler).

Record World : Type := mkWorld {
  this : KeyboardShortcutManager;
  keydownListeners : list Listener;
  navigatorPlatform : string;
  hostCalls : list HostCall
}.

Inductive JsError : Type := TypeError.

Inductive Completion (A : Type) : Type :=
| Normal (a : A)
| Throw (e : JsError).
Arguments Normal {A} a.
Arguments Throw {A} e.

(** State and exceptions: a thrown error keeps the writes made so far. *)
Definition M (A : Type) : Type := World -> Completion A * World.

Definition ret {A} (a : A) : M A := fun w => (Normal a, w).

Definition bind {A B} (c : M A) (k : A -> M B) : M B :=
  fun w =>
    match c w with
    | (Normal a, w') => k a w'
    | (Throw e, w') => (Throw e, w')
    end.

Definition throw {A} (e : JsError) : M A := fun w => (Throw e, w).

Declare Scope js_scope.
Delimit Scope js_scope with js.
Notation "x <- c1 ;; c2" := (bind c1 (fun x => c2))
  (at level 61, c1 at next level, right associativity) : js_scope.
Notation "c1 ;; c2" := (bind c1 (fun _ => c2))
  (at level 61, right associativity) : js_scope.
Local Open Scope js_scope.

(** The world a computation leaves, and how it completes. *)
Definition exec {A} (c : M A) (w : World) : World := snd (c w).
Definition completion {A} (c : M A) (w : World) : Completion A := fst (c w).

(** *** Reads and writes of [this] *)

Definition get_shortcuts : M (JsMap.t ShortcutAction) :=
  fun w => (Normal (shortcuts (this w)), w).

Definition get_isListening : M bool :=
  fun w => (Normal (isListening (this w)), w).

Definition set_shortcuts (m : JsMap.t ShortcutAction) : M unit :=
  fun w =>
    (Normal tt,
     mkWorld (mkManager m (isListening (this w)))
             (keydownListeners w) (navigatorPlatform w) (hostCalls w)).

Definition set_isListening (b : bool) : M unit :=
  fun w =>
    (Normal tt,
     mkWorld (mkManager (shortcuts (this w)) b)
             (keydownListeners w) (navigatorPlatform w) (hostCalls w)).

(** *** The host *)

Definition log (c : HostCall) (w : World) : World :=
  mkWorld (this w) (keydownListeners w) (navigatorPlatform w)
          (hostCalls w ++ [c]).

Definition logs (cs : list HostCall) (w : World) : World :=
  mkWorld (this w) (keydownListeners w) (navigatorPlatform w)
          (hostCalls w ++ cs).

(** The calls logged on the way from [w] to [w']. *)
Definition newCalls (w w' : World) : list HostCall :=
  skipn (length (hostCalls w)) (hostCalls w').

Definition with_listeners (ls : list Listener) (w : World) : World :=
  mkWorld (this w) ls (navigatorPlatform w) (hostCalls w).

Fixpoint remove_first (l : Listener) (ls : list Listener) : list Listener :=
  match ls with
  | [] => []
  | x :: r => if Listener_eq_dec x l then r else x :: remove_first l r
  end.

(** [document.addEventListener('keydown', l)]: the DOM discards a listener
    that is already attached. *)
Definition document_addEventListener (l : Listener) : M unit :=
  fun w =>
    let ls := keydownListeners w in
    (Normal tt,
     log (AddEventListener l)
         (with_listeners (if in_dec Listener_eq_dec l ls then ls else ls ++ [l]) w)).

(** [document.removeEventListener('keydown', l)]: nothing happens when [l]
    is not attached. *)
Definition document_removeEventListener (l : Listener) : M unit :=
  fun w =>
    (Normal tt,
     log (RemoveEventListener l)
         (with_listeners (remove_first l (keydownListeners w)) w)).

Definition event_preventDefault : M unit := fun w => (Normal tt, log PreventDefault w).
Definition event_stopPropagation : M unit := fun w => (Normal tt, log StopPropagation w).

(** [shortcut.action()]: the body of the handler is the caller's code; the
    call itself is what the manager does. *)
Definition call_action (h : Handler) : M unit := fun w => (Normal tt, log (CallAction h) w).

Definition navigator_platform : M string := fun w => (Normal (navigatorPlatform w), w).

(* ================================================================== *)
(** ** The methods *)

Section Methods.
Context {host : HostStrings}.

(** [register(shortcut: ShortcutAction): void] *)
Definition register (shortcut : ShortcutAction) : M unit :=
  let key := getShortcutKey (asPartial shortcut) in
  m <- get_shortcuts ;;
  set_shortcuts (JsMap.set m key shortcut).

(** [unregister(shortcut: Partial<ShortcutAction>): void] *)
Definition unregister (shortcut : Partial.t) : M unit :=
  let key := getShortcutKey shortcut in
  m <- get_shortcuts ;;
  set_shortcuts (JsMap.delete m key).

(** [startListening(): void] *)
Definition startListening : M unit :=
  l <- get_isListening ;;
  if negb l then
    document_addEventListener BoundHandleKeyDown ;;
    set_isListening true
  else ret tt.

(** [stopListening(): void] *)
Definition stopListening : M unit :=
  l <- get_isListening ;;
  if l then
    document_removeEventListener BoundHandleKeyDown ;;
    set_isListening false
  else ret tt.

(** [getShortcuts(): ShortcutAction[]] *)
Definition getShortcuts : M (list ShortcutAction) :=
  m <- get_shortcuts ;;
  ret (JsMap.values m).

(** The test that opens [handleKeyDown]. *)
Definition isEditableTarget (target : HTMLElement) : bool :=
  String.eqb (tagName target) "INPUT"
  || String.eqb (tagName target) "TEXTAREA"
  || isContentEditable target.

(** The object literal [handleKeyDown] passes to [getShortcutKey]. *)
Definition eventCombination (event : KeyboardEvent.t) : Partial.t :=
  Partial.mk (Some (KeyboardEvent.key event))
             (Some (KeyboardEvent.ctrlKey event))
             (Some (KeyboardEvent.altKey event))
             (Some (KeyboardEvent.shiftKey event))
             (Some (KeyboardEvent.metaKey event))
             None None.

(** [private handleKeyDown(event: KeyboardEvent): void] *)
Definition handleKeyDown (event : KeyboardEvent.t) : M unit :=
  let target := KeyboardEvent.target event in
  if isEditableTarget target then ret tt
  else
    let shortcutKey := getShortcutKey (eventCombination event) in
    m <- get_shortcuts ;;
    match JsMap.get m shortcutKey with
    | Some shortcut =>
        event_preventDefault ;;
        event_stopPropagation ;;
        call_action (action shortcut)
    | None => ret tt
    end.

(** [static formatShortcut(shortcut: ShortcutAction): string] *)
Definition formatShortcut (shortcut : ShortcutAction) : M string :=
  let parts := [] in
  platform <- navigator_platform ;;
  let isMac := Z.leb 0 (indexOf (toUpperCase platform) "MAC") in
  let parts :=
    if truthy_flag (ctrlKey shortcut)
    then push parts (if isMac then "⌘" else "Ctrl") else parts in
  let parts :=
    if truthy_flag (altKey shortcut)
    then push parts (if isMac then "⌥" else "Alt") else parts in
  let parts :=
    if truthy_flag (shiftKey shortcut)
    then push parts (if isMac then "⇧" else "Shift") else parts in
  let parts :=
    if truthy_flag (metaKey shortcut) && negb isMac
    then push parts "Meta" else parts in
  match key shortcut with
  | None => throw TypeError      (* [undefined.toLowerCase()] *)
  | Some k =>
      let lower := toLowerCase k in
      let keyName :=
        if String.eqb lower "enter" then "↵"
        else if String.eqb lower "escape" then "Esc"
        else if String.eqb lower "arrowup" then "↑"
        else if String.eqb lower "arrowdown" then "↓"
        else if String.eqb lower "arrowleft" then "←"
        else if String.eqb lower "arrowright" then "→"
        else if String.eqb lower " " then "Space"
        else toUpperCase k in
      let parts := push parts keyName in
      ret (join (if isMac then "" else "+") parts)
  end.

(** The document delivers a keydown event: every attached listener is
    called in turn.  Only the manager's listener is this program. *)
Definition call_listener (event : KeyboardEvent.t) (l : Listener) : M unit :=
  match l with
  | BoundHandleKeyDown => handleKeyDown event
  | Foreign _ => ret tt
  end.

Fixpoint call_listeners (event : KeyboardEvent.t) (ls : list Listener) : M unit :=
  match ls with
  | [] => ret tt
  | l :: r => call_listener event l ;; call_listeners event r
  end.

Definition dispatchEvent (event : KeyboardEvent.t) : M unit :=
  fun w => call_listeners event (keydownListeners w) w.

(** *** Life of a manager *)

(** [new KeyboardShortcutManager()] in a document that other code may
    already listen to. *)
Definition newWorld (others : list nat) (platform : string) : World :=
  mkWorld (mkManager JsMap.empty false) (map Foreign others) platform [].

Inductive Op : Type :=
| OpRegister (shortcut : ShortcutAction)
| OpUnregister (shortcut : Partial.t)
| OpStartListening
| OpStopListening
| OpKeyDown (event : KeyboardEvent.t).

Definition run (o : Op) : M unit :=
  match o with
  | OpRegister s => register s
  | OpUnregister s => unregister s
  | OpStartListening => startListening
  | OpStopListening => stopListening
  | OpKeyDown e => dispatchEvent e
  end.

(** A computation run [n] times in a row. *)
Fixpoint times (n : nat) (c : M unit) : M unit :=
  match n with
  | O => ret tt
  | S n' => c ;; times n' c
  end.

Inductive Reachable : World -> Prop :=
| Reachable_new others platform : Reachable (newWorld others platform)
| Reachable_run o w : Reachable w -> Reachable (exec (run o) w).
End Methods.

(* ================================================================== *)
(** ** What the specification says, in its own words *)

Section Stated.
Context {host : HostStrings}.

(** "the names of the present modifiers in the fixed order control, alt,
    shift, meta" *)
Definition modifierNames (ctrl alt shift meta : bool) : list string :=
  (if ctrl then ["ctrl"] else []) ++ (if alt then ["alt"] else [])
  ++ (if shift then ["shift"] else []) ++ (if meta then ["meta"] else []).

(** "... followed by the lowercased primary key, joined by a fixed
    separator" *)
Definition canonicalKey_stated (ctrl alt shift meta : bool) (k : string) : string :=
  join "+" (modifierNames ctrl alt shift meta ++ [toLowerCase k]).

(** The part the primary key contributes: nothing when it is missing or
    empty. *)
Definition keyPart (k : option string) : list string :=
  if truthy_string k then
    match k with Some k' => [toLowerCase k'] | None => [] end
  else [].

(** "a degenerate canonical key consisting of only the modifier prefix" *)
Definition modifierPrefix (ctrl alt shift meta : bool) : string :=
  join "+" (modifierNames ctrl alt shift meta).

(** The modifier labels of the display format: glyphs and no meta on a
    macOS-like platform, words elsewhere. *)
Definition modifierLabels (isMac ctrl alt shift meta : bool) : list string :=
  if isMac then
    (if ctrl then ["⌘"] else []) ++ (if alt then ["⌥"] else [])
    ++ (if shift then ["⇧"] else [])
  else
    (if ctrl then ["Ctrl"] else []) ++ (if alt then ["Alt"] else [])
    ++ (if shift then ["Shift"] else []) ++ (if meta then ["Meta"] else []).

(** The glyph substitution table, matched on the lowercased key. *)
Definition glyphTable : list (string * string) :=
  [("enter", "↵"); ("escape", "Esc"); ("arrowup", "↑"); ("arrowdown", "↓");
   ("arrowleft", "←"); ("arrowright", "→"); (" ", "Space")].

Definition keyGlyph (k : string) : string :=
  match JsMap.get glyphTable (toLowerCase k) with
  | Some g => g
  | None => toUpperCase k
  end.

Definition displayLabel (isMac ctrl alt shift meta : bool) (k : string) : string :=
  join (if isMac then "" else "+")
       (modifierLabels isMac ctrl alt shift meta ++ [keyGlyph k]).

(** "macOS-like": the platform descriptor contains MAC, in any case. *)
Definition macLike (platform : string) : bool :=
  Z.leb 0 (indexOf (toUpperCase platform) "MAC").

(** The three editable surfaces of the dispatch algorithm, by what the
    event target shows of them to [handleKeyDown]: the tag of an input
    field, the tag of a text area, the content-editable flag. *)
Definition textInput (e : HTMLElement) : Prop := tagName e = "INPUT".
Definition textArea (e : HTMLElement) : Prop := tagName e = "TEXTAREA".
Definition contentEditable (e : HTMLElement) : Prop := isContentEditable e = true.
Definition editableSurface (e : HTMLElement) : Prop :=
  textInput e \/ textArea e \/ contentEditable e.

(** *** Invariants of the registry *)

(** The bindings stored for one canonical combination. *)
Definition bindingsFor (c : string) (m : JsMap.t ShortcutAction) : list ShortcutAction :=
  filter (fun b => String.eqb (getShortcutKey (asPartial b)) c) (JsMap.values m).

Definition atMostOnePerCombination (m : JsMap.t ShortcutAction) : Prop :=
  forall c, length (bindingsFor c m) <= 1.

(** Every entry sits under the canonical key of its own binding, and no
    key occurs twice. *)
Definition keyedByCanonical (m : JsMap.t ShortcutAction) : Prop :=
  Forall (fun e => fst e = getShortcutKey (asPartial (snd e))) m.

Definition registryWf (m : JsMap.t ShortcutAction) : Prop :=
  NoDup (JsMap.keys m) /\ keyedByCanonical m.

(** The listening flag says whether the bound listener is attached, and
    it is attached at most once. *)
Definition attached (w : World) : nat :=
  count_occ Listener_eq_dec (keydownListeners w) BoundHandleKeyDown.

Definition listeningWf (w : World) : Prop :=
  attached w = if isListening (this w) then 1 else 0.

Definition worldWf (w : World) : Prop :=
  registryWf (shortcuts (this w)) /\ listeningWf w.
End Stated.

(* ================================================================== *)
(** ** The shortcuts the extension ships *)

(** [DEFAULT_SHORTCUTS], each completed with the handler its caller
    spreads in ([{...DEFAULT_SHORTCUTS.X, action}]). *)
Module DEFAULT_SHORTCUTS.
Definition TAKE_SCREENSHOT (h : Handler) : ShortcutAction :=
  mkShortcutAction (Some "s") (Some true) None None None
                   "Take full page screenshot" h.
Definition SELECT_REGION (h : Handler) : ShortcutAction :=
  mkShortcutAction (Some "s") (Some true) None (Some true) None
                   "Select region for screenshot" h.
Definition SEND_MESSAGE (h : Handler) : ShortcutAction :=
  mkShortcutAction (Some "Enter") None None None None "Send message" h.
Definition NEW_CHAT (h : Handler) : ShortcutAction :=
  mkShortcutAction (Some "n") (Some true) None None None "Start new chat" h.
Definition FOCUS_INPUT (h : Handler) : ShortcutAction :=
  mkShortcutAction (Some "/") None None None None "Focus message input" h.
Definition TOGGLE_SETTINGS (h : Handler) : ShortcutAction :=
  mkShortcutAction (Some ",") (Some true) None None None "Toggle settings panel" h.
Definition ESCAPE (h : Handler) : ShortcutAction :=
  mkShortcutAction (Some "Escape") None None None None "Cancel current action" h.
End DEFAULT_SHORTCUTS.

Section Mounted.
Context {host : HostStrings}.

(** [setupKeyboardShortcuts()] of the main component: the handlers are
    numbered in the order of its array. *)
Definition setupKeyboardShortcuts : M unit :=
  register (DEFAULT_SHORTCUTS.TAKE_SCREENSHOT 1) ;;
  register (DEFAULT_SHORTCUTS.SELECT_REGION 2) ;;
  register (DEFAULT_SHORTCUTS.NEW_CHAT 3) ;;
  register (DEFAULT_SHORTCUTS.FOCUS_INPUT 4) ;;
  register (DEFAULT_SHORTCUTS.ESCAPE 5) ;;
  register (mkShortcutAction (Some "b") (Some true) None None None "Toggle batch mode" 6) ;;
  startListening.
End Mounted.

(** A page whose component is mounted, and a few events on it. *)
Definition page : HTMLElement := mkHTMLElement "DIV" false.
Definition inputField : HTMLElement := mkHTMLElement "INPUT" false.

Definition mounted : World :=
  exec (setupKeyboardShortcuts (host := basic_latin_host)) (newWorld [] "Win32").

Definition ctrl_shift_S (target : HTMLElement) : KeyboardEvent.t :=
  KeyboardEvent.mk "S" true false true false target.

Definition alt_z (target : HTMLElement) : KeyboardEvent.t :=
  KeyboardEvent.mk "z" false true false false target.

(* ================================================================== *)
(** ** The caller: the main component *)

(** [Array.prototype.forEach] with a callback that runs a computation. *)
Fixpoint forEach {A : Type} (f : A -> M unit) (l : list A) : M unit :=
  match l with
  | [] => ret tt
  | x :: r => (f x ;; forEach f r)%js
  end.

Section MainContent.
Context {host : HostStrings}.

(** The array [shortcuts] of [setupKeyboardShortcuts]: five defaults and
    the batch-mode shortcut, each with the closure made at this mount. *)
Definition mountShortcuts (h1 h2 h3 h4 h5 h6 : Handler) : list ShortcutAction :=
  [ DEFAULT_SHORTCUTS.TAKE_SCREENSHOT h1;
    DEFAULT_SHORTCUTS.SELECT_REGION h2;
    DEFAULT_SHORTCUTS.NEW_CHAT h3;
    DEFAULT_SHORTCUTS.FOCUS_INPUT h4;
    DEFAULT_SHORTCUTS.ESCAPE h5;
    mkShortcutAction (Some "b") (Some true) None None None "Toggle batch mode" h6 ].

(** [function setupKeyboardShortcuts()], with the closures of the mount as
    parameters: [shortcuts.forEach(register)], then [startListening()]. *)
Definition setupKeyboardShortcutsWith (h1 h2 h3 h4 h5 h6 : Handler) : M unit :=
  (forEach register (mountShortcuts h1 h2 h3 h4 h5 h6) ;;
   startListening)%js.

(** [onDestroy(() => keyboardShortcuts.stopListening())] *)
Definition onDestroy : M unit := stopListening.
End MainContent.

(* ================================================================== *)
(** ** Reading the log of host calls *)

(** What one run of [handleKeyDown] asks of the host, read off the
    registry. *)
Definition handlerCalls {host : HostStrings} (event : KeyboardEvent.t) (w : World)
  : list HostCall :=
  if isEditableTarget (KeyboardEvent.target event) then []
  else match JsMap.get (shortcuts (this w)) (getShortcutKey (eventCombination event)) with
       | Some b => [PreventDefault; StopPropagation; CallAction (action b)]
       | None => []
       end.

Definition isForeign (l : Listener) : bool :=
  match l with
  | Foreign _ => true
  | BoundHandleKeyDown => false
  end.

(** A reader of the log: whether the listener is attached, and how far a
    dispatch has got. *)
Inductive Phase : Type := Ready | Prevented | Stopped.

Definition logStep (s : bool * Phase) (c : HostCall) : option (bool * Phase) :=
  match s, c with
  | (false, Ready), AddEventListener BoundHandleKeyDown => Some (true, Ready)
  | (true, Ready), RemoveEventListener BoundHandleKeyDown => Some (false, Ready)
  | (true, Ready), PreventDefault => Some (true, Prevented)
  | (true, Prevented), StopPropagation => Some (true, Stopped)
  | (true, Stopped), CallAction _ => Some (true, Ready)
  | _, _ => None
  end.

Fixpoint logRun (s : bool * Phase) (cs : list HostCall) : option (bool * Phase) :=
  match cs with
  | [] => Some s
  | c :: r =>
      match logStep s c with
      | Some s' => logRun s' r
      | None => None
      end
  end.

(** What [join sep (parts ++ [x])] puts in front of [x]: every part
    followed by the separator. *)
Definition lead (sep : string) (parts : list string) : string :=
  fold_right (fun a acc => (a ++ sep ++ acc)%string) EmptyString parts.

(* ================================================================== *)
(** ** Lemmas on maps *)

Module JsMapFacts.
Section Facts.
Context {V : Type}.
Implicit Types (m : JsMap.t V) (k : string) (v : V).

Lemma get_set_same m k v : JsMap.get (JsMap.set m k v) k = Some v.
Proof.
  induction m as [|[k' v'] r IH]; simpl.
  - now rewrite String.eqb_refl.
  - destruct (String.eqb k' k) eqn:E; simpl.
    + now rewrite String.eqb_refl.
    + now rewrite E.
Qed.

Lemma get_set_other m k k' v :
  k <> k' -> JsMap.get (JsMap.set m k v) k' = JsMap.get m k'.
Proof.
  intros Hne. induction m as [|[k0 v0] r IH]; simpl.
  - destruct (String.eqb k k') eqn:E; [apply String.eqb_eq in E; contradiction | reflexivity].
  - destruct (String.eqb k0 k) eqn:E; simpl.
    + apply String.eqb_eq in E; subst k0.
      destruct (String.eqb k k') eqn:E'; [apply String.eqb_eq in E'; contradiction | reflexivity].
    + now rewrite IH.
Qed.

Lemma get_None_notin m k : JsMap.get m k = None <-> ~ In k (JsMap.keys m).
Proof.
  induction m as [|[k' v'] r IH]; simpl.
  - split; auto.
  - destruct (String.eqb k' k) eqn:E.
    + apply String.eqb_eq in E. split; [discriminate | intros H; exfalso; apply H; now left].
    + apply String.eqb_neq in E. rewrite IH. split.
      * intros H [H1 | H1]; auto.
      * intros H H1; apply H; now right.
Qed.

Lemma get_Some_in m k v : JsMap.get m k = Some v -> In (k, v) m.
Proof.
  induction m as [|[k' v'] r IH]; simpl; [discriminate|].
  destruct (String.eqb k' k) eqn:E.
  - apply String.eqb_eq in E; subst. intros [= ->]. now left.
  - intros H; right; auto.
Qed.

Lemma keys_set_present m k v :
  In k (JsMap.keys m) -> JsMap.keys (JsMap.set m k v) = JsMap.keys m.
Proof.
  induction m as [|[k' v'] r IH]; simpl; [contradiction|].
  destruct (String.eqb k' k) eqn:E; simpl.
  - apply String.eqb_eq in E. now subst.
  - apply String.eqb_neq in E. intros [H | H]; [contradiction|]. now rewrite IH.
Qed.

Lemma keys_set_absent m k v :
  ~ In k (JsMap.keys m) -> JsMap.keys (JsMap.set m k v) = JsMap.keys m ++ [k].
Proof.
  induction m as [|[k' v'] r IH]; simpl; [reflexivity|].
  intros H. destruct (String.eqb k' k) eqn:E; simpl.
  - apply String.eqb_eq in E. exfalso; apply H; now left.
  - rewrite IH; [reflexivity | intros H1; apply H; now right].
Qed.

Lemma size_set_present m k v :
  In k (JsMap.keys m) -> JsMap.size (JsMap.set m k v) = JsMap.size m.
Proof.
  intros H. unfold JsMap.size.
  rewrite <- (length_map fst), <- (length_map fst m).
  fold (JsMap.keys (JsMap.set m k v)); fold (JsMap.keys m).
  now rewrite keys_set_present.
Qed.

Lemma NoDup_keys_set m k v :
  NoDup (JsMap.keys m) -> NoDup (JsMap.keys (JsMap.set m k v)).
Proof.
  intros Hnd. destruct (in_dec string_dec k (JsMap.keys m)) as [Hin | Hnin].
  - now rewrite keys_set_present.
  - rewrite keys_set_absent by assumption.
    apply NoDup_app; [assumption | repeat constructor; simpl; tauto |].
    intros x Hx [<- | []]. contradiction.
Qed.

Lemma in_set m k v e :
  In e (JsMap.set m k v) -> e = (k, v) \/ In e m.
Proof.
  induction m as [|[k' v'] r IH]; simpl.
  - intros [<- | []]; now left.
  - destruct (String.eqb k' k); simpl.
    + intros [<- | H]; [now left | right; now right].
    + intros [<- | H]; [right; now left|].
      destruct (IH H); [now left | right; now right].
Qed.

Lemma delete_absent m k : JsMap.get m k = None -> JsMap.delete m k = m.
Proof.
  induction m as [|[k' v'] r IH]; simpl; [reflexivity|].
  destruct (String.eqb k' k); [discriminate|]. intros H. now rewrite IH.
Qed.

Lemma in_keys_delete m k x :
  In x (JsMap.keys (JsMap.delete m k)) -> In x (JsMap.keys m).
Proof.
  induction m as [|[k' v'] r IH]; simpl; [tauto|].
  destruct (String.eqb k' k); simpl; [tauto|].
  intros [H | H]; [now left | right; auto].
Qed.

Lemma in_delete m k e : In e (JsMap.delete m k) -> In e m.
Proof.
  induction m as [|[k' v'] r IH]; simpl; [tauto|].
  destruct (String.eqb k' k); simpl; [tauto|].
  intros [H | H]; [now left | right; auto].
Qed.

Lemma NoDup_keys_delete m k :
  NoDup (JsMap.keys m) -> NoDup (JsMap.keys (JsMap.delete m k)).
Proof.
  induction m as [|[k' v'] r IH]; simpl; [auto|].
  intros Hnd. inversion Hnd as [|? ? Hnin Hr]; subst.
  destruct (String.eqb k' k); simpl; [assumption|].
  constructor; [|auto]. intros H. apply Hnin. eapply in_keys_delete; eauto.
Qed.

Lemma get_delete_same m k :
  NoDup (JsMap.keys m) -> JsMap.get (JsMap.delete m k) k = None.
Proof.
  induction m as [|[k' v'] r IH]; simpl; [reflexivity|].
  intros Hnd. inversion Hnd as [|? ? Hnin Hr]; subst.
  destruct (String.eqb k' k) eqn:E; simpl.
  - apply String.eqb_eq in E; subst. now apply get_None_notin.
  - rewrite E. auto.
Qed.

Lemma get_delete_other m k k' :
  k <> k' -> JsMap.get (JsMap.delete m k) k' = JsMap.get m k'.
Proof.
  intros Hne. induction m as [|[k0 v0] r IH]; simpl; [reflexivity|].
  destruct (String.eqb k0 k) eqn:E; simpl.
  - apply String.eqb_eq in E; subst k0.
    destruct (String.eqb k k') eqn:E'; [apply String.eqb_eq in E'; contradiction | reflexivity].
  - now rewrite IH.
Qed.

Lemma size_delete_present m k v :
  JsMap.get m k = Some v -> S (JsMap.size (JsMap.delete m k)) = JsMap.size m.
Proof.
  induction m as [|[k' v'] r IH]; simpl; [discriminate|].
  destruct (String.eqb k' k); simpl; [reflexivity|].
  intros H. unfold JsMap.size in *. simpl. now rewrite IH.
Qed.
End Facts.
End JsMapFacts.

(* ================================================================== *)
(** ** Properties of the manager *)

Ltac unfold_m :=
  unfold exec, completion, register, unregister, startListening, stopListening,
    getShortcuts, document_addEventListener, document_removeEventListener,
    event_preventDefault, event_stopPropagation, call_action, navigator_platform,
    get_shortcuts, get_isListening, set_shortcuts, set_isListening,
    bind, ret, throw, log, logs, with_listeners in *.

Section Properties.
Context {host : HostStrings}.

(** *** The canonical key, part by part *)

Lemma getShortcutKey_parts (p : Partial.t) :
  getShortcutKey p =
  join "+" (modifierNames (truthy_flag (Partial.ctrlKey p)) (truthy_flag (Partial.altKey p))
                          (truthy_flag (Partial.shiftKey p)) (truthy_flag (Partial.metaKey p))
            ++ keyPart (Partial.key p)).
Proof.
  unfold getShortcutKey, modifierNames, keyPart, push.
  destruct (truthy_flag (Partial.ctrlKey p)), (truthy_flag (Partial.altKey p)),
    (truthy_flag (Partial.shiftKey p)), (truthy_flag (Partial.metaKey p));
    destruct (Partial.key p) as [[|c r]|]; reflexivity.
Qed.

Lemma isEditableTarget_true (e : HTMLElement) :
  isEditableTarget e = true <-> editableSurface e.
Proof.
  unfold isEditableTarget, editableSurface, textInput, textArea, contentEditable.
  rewrite !orb_true_iff, !String.eqb_eq. tauto.
Qed.

Lemma isEditableTarget_false (e : HTMLElement) :
  ~ editableSurface e -> isEditableTarget e = false.
Proof.
  intros H. destruct (isEditableTarget e) eqn:E; [|reflexivity].
  apply isEditableTarget_true in E. contradiction.
Qed.

(** *** What each method does to the world *)

Lemma logs_nil w : logs [] w = w.
Proof. destruct w; unfold logs; simpl. now rewrite app_nil_r. Qed.

Lemma newCalls_logs cs w : newCalls w (logs cs w) = cs.
Proof.
  unfold newCalls, logs; simpl.
  now rewrite skipn_app, skipn_all, Nat.sub_diag.
Qed.

Lemma handleKeyDown_editable ev w :
  isEditableTarget (KeyboardEvent.target ev) = true ->
  handleKeyDown ev w = (Normal tt, w).
Proof. intros H. unfold handleKeyDown. now rewrite H. Qed.

Lemma handleKeyDown_found ev w b :
  isEditableTarget (KeyboardEvent.target ev) = false ->
  JsMap.get (shortcuts (this w)) (getShortcutKey (eventCombination ev)) = Some b ->
  handleKeyDown ev w =
  (Normal tt, logs [PreventDefault; StopPropagation; CallAction (action b)] w).
Proof.
  intros H G. unfold handleKeyDown. rewrite H. unfold_m. rewrite G. simpl.
  now rewrite <- !app_assoc.
Qed.

Lemma handleKeyDown_absent ev w :
  JsMap.get (shortcuts (this w)) (getShortcutKey (eventCombination ev)) = None ->
  handleKeyDown ev w = (Normal tt, w).
Proof.
  intros G. unfold handleKeyDown.
  destruct (isEditableTarget _); [reflexivity|]. unfold_m. now rewrite G.
Qed.

(** [handleKeyDown] returns normally and only adds to the log. *)
Lemma handleKeyDown_logs ev w :
  exists cs, handleKeyDown ev w = (Normal tt, logs cs w).
Proof.
  destruct (isEditableTarget (KeyboardEvent.target ev)) eqn:E.
  - exists []. rewrite logs_nil. now apply handleKeyDown_editable.
  - destruct (JsMap.get (shortcuts (this w)) (getShortcutKey (eventCombination ev))) eqn:G.
    + eexists. apply handleKeyDown_found; eassumption.
    + exists []. rewrite logs_nil. now apply handleKeyDown_absent.
Qed.

Lemma bind_ret_tt (c : M unit) w : (c ;; ret tt) w = c w.
Proof. unfold bind, ret. destruct (c w) as [[[]|e] w']; reflexivity. Qed.

Lemma call_listeners_times ev ls w :
  call_listeners ev ls w =
  times (count_occ Listener_eq_dec ls BoundHandleKeyDown) (handleKeyDown ev) w.
Proof.
  revert w. induction ls as [|l r IH]; intros w; [reflexivity|].
  destruct l as [|n]; simpl.
  - unfold bind. destruct (handleKeyDown ev w) as [[[]|e] w']; [apply IH | reflexivity].
  - unfold bind at 1. simpl. apply IH.
Qed.

Lemma times_logs ev n w :
  exists cs, times n (handleKeyDown ev) w = (Normal tt, logs cs w).
Proof.
  revert w. induction n as [|n IH]; intros w; simpl.
  - exists []. now rewrite logs_nil.
  - destruct (handleKeyDown_logs ev w) as [cs1 H1].
    destruct (IH (logs cs1 w)) as [cs2 H2].
    exists (cs1 ++ cs2). unfold bind. rewrite H1, H2.
    unfold logs; simpl. now rewrite app_assoc.
Qed.

Lemma dispatchEvent_logs ev w :
  exists cs, dispatchEvent ev w = (Normal tt, logs cs w).
Proof. unfold dispatchEvent. rewrite call_listeners_times. apply times_logs. Qed.

Lemma dispatchEvent_once ev w :
  attached w = 1 -> dispatchEvent ev w = handleKeyDown ev w.
Proof.
  intros H. unfold dispatchEvent. rewrite call_listeners_times.
  unfold attached in H. rewrite H. simpl. apply bind_ret_tt.
Qed.

Lemma dispatchEvent_detached ev w :
  attached w = 0 -> dispatchEvent ev w = (Normal tt, w).
Proof.
  intros H. unfold dispatchEvent. rewrite call_listeners_times.
  unfold attached in H. now rewrite H.
Qed.

(** *** The registry invariant *)

Lemma register_eq s w :
  register s w =
  (Normal tt,
   mkWorld (mkManager (JsMap.set (shortcuts (this w)) (getShortcutKey (asPartial s)) s)
                      (isListening (this w)))
           (keydownListeners w) (navigatorPlatform w) (hostCalls w)).
Proof. reflexivity. Qed.

Lemma unregister_eq p w :
  unregister p w =
  (Normal tt,
   mkWorld (mkManager (JsMap.delete (shortcuts (this w)) (getShortcutKey p))
                      (isListening (this w)))
           (keydownListeners w) (navigatorPlatform w) (hostCalls w)).
Proof. reflexivity. Qed.

Lemma register_twice b1 b2 w :
  getShortcutKey (asPartial b1) = getShortcutKey (asPartial b2) ->
  shortcuts (this (exec (register b2) (exec (register b1) w))) =
  JsMap.set (shortcuts (this w)) (getShortcutKey (asPartial b2)) b2.
Proof.
  intros E. unfold exec. rewrite !register_eq. simpl. rewrite E.
  generalize (getShortcutKey (asPartial b2)) as c. intros c.
  induction (shortcuts (this w)) as [|[k v] r IH]; simpl.
  - now rewrite String.eqb_refl.
  - destruct (String.eqb k c) eqn:Ek; simpl.
    + now rewrite String.eqb_refl.
    + now rewrite Ek, IH.
Qed.

Lemma registryWf_empty : registryWf JsMap.empty.
Proof. split; constructor. Qed.

Lemma registryWf_set m s :
  registryWf m -> registryWf (JsMap.set m (getShortcutKey (asPartial s)) s).
Proof.
  intros [Hnd Hk]. split.
  - now apply JsMapFacts.NoDup_keys_set.
  - unfold keyedByCanonical in *. rewrite Forall_forall in *.
    intros e He. apply JsMapFacts.in_set in He as [-> | He]; [reflexivity | auto].
Qed.

Lemma registryWf_delete m k : registryWf m -> registryWf (JsMap.delete m k).
Proof.
  intros [Hnd Hk]. split.
  - now apply JsMapFacts.NoDup_keys_delete.
  - unfold keyedByCanonical in *. rewrite Forall_forall in *.
    intros e He. apply Hk. eapply JsMapFacts.in_delete; eauto.
Qed.

Lemma bindingsFor_absent c m :
  keyedByCanonical m -> ~ In c (JsMap.keys m) -> bindingsFor c m = [].
Proof.
  unfold bindingsFor, JsMap.values, JsMap.keys.
  induction m as [|[k b] r IH]; simpl; intros Hk Hn; [reflexivity|].
  inversion Hk as [|? ? Hkb Hr]; subst. simpl in Hkb.
  destruct (String.eqb (getShortcutKey (asPartial b)) c) eqn:E.
  - apply String.eqb_eq in E. exfalso. apply Hn. left. congruence.
  - apply IH; [assumption | tauto].
Qed.

Lemma registryWf_atMostOne m : registryWf m -> atMostOnePerCombination m.
Proof.
  intros [Hnd Hk] c. induction m as [|[k b] r IH]; [simpl; lia|].
  inversion Hnd as [|? ? Hnin Hndr]; subst.
  inversion Hk as [|? ? Hkb Hkr]; subst. simpl in Hkb.
  unfold bindingsFor, JsMap.values in *. simpl.
  destruct (String.eqb (getShortcutKey (asPartial b)) c) eqn:E.
  - apply String.eqb_eq in E.
    fold (JsMap.values r). fold (bindingsFor c r).
    rewrite bindingsFor_absent; [simpl; lia | assumption | congruence].
  - now apply IH.
Qed.

(** The bindings stored for [c] are the entry found under [c], if any. *)
Lemma bindingsFor_get c m :
  registryWf m ->
  bindingsFor c m = match JsMap.get m c with Some b => [b] | None => [] end.
Proof.
  intros [Hnd Hk]. induction m as [|[k b] r IH]; [reflexivity|].
  inversion Hnd as [|? ? Hnin Hndr]; subst.
  inversion Hk as [|? ? Hkb Hkr]; subst. simpl in Hkb.
  unfold bindingsFor, JsMap.values. simpl. rewrite <- Hkb.
  destruct (String.eqb k c) eqn:E.
  - apply String.eqb_eq in E; subst c.
    fold (JsMap.values r). fold (bindingsFor k r).
    now rewrite bindingsFor_absent.
  - now apply IH.
Qed.

(** *** The listening invariant *)

Lemma count_remove_first l ls :
  count_occ Listener_eq_dec (remove_first l ls) l =
  pred (count_occ Listener_eq_dec ls l).
Proof.
  induction ls as [|x r IH]; simpl; [reflexivity|].
  destruct (Listener_eq_dec x l) as [->|Hne]; [reflexivity|].
  simpl. destruct (Listener_eq_dec x l); [contradiction | exact IH].
Qed.

Lemma startListening_off w :
  isListening (this w) = false ->
  startListening w =
  (Normal tt,
   mkWorld (mkManager (shortcuts (this w)) true)
           (if in_dec Listener_eq_dec BoundHandleKeyDown (keydownListeners w)
            then keydownListeners w else keydownListeners w ++ [BoundHandleKeyDown])
           (navigatorPlatform w)
           (hostCalls w ++ [AddEventListener BoundHandleKeyDown])).
Proof. intros H. unfold_m. now rewrite H. Qed.

Lemma startListening_on w :
  isListening (this w) = true -> startListening w = (Normal tt, w).
Proof. intros H. unfold_m. now rewrite H. Qed.

Lemma stopListening_on w :
  isListening (this w) = true ->
  stopListening w =
  (Normal tt,
   mkWorld (mkManager (shortcuts (this w)) false)
           (remove_first BoundHandleKeyDown (keydownListeners w))
           (navigatorPlatform w)
           (hostCalls w ++ [RemoveEventListener BoundHandleKeyDown])).
Proof. intros H. unfold_m. now rewrite H. Qed.

Lemma stopListening_off w :
  isListening (this w) = false -> stopListening w = (Normal tt, w).
Proof. intros H. unfold_m. now rewrite H. Qed.

Lemma startListening_wf w : listeningWf w -> listeningWf (exec startListening w).
Proof.
  unfold listeningWf, attached. intros H.
  destruct (isListening (this w)) eqn:L.
  - unfold exec. rewrite startListening_on by assumption. simpl. now rewrite L.
  - unfold exec. rewrite startListening_off by assumption. simpl.
    destruct (in_dec Listener_eq_dec BoundHandleKeyDown (keydownListeners w)) as [Hin|Hnin].
    + apply (count_occ_In Listener_eq_dec) in Hin. lia.
    + rewrite count_occ_app, H. simpl.
      destruct (Listener_eq_dec BoundHandleKeyDown BoundHandleKeyDown); [reflexivity | contradiction].
Qed.

Lemma stopListening_wf w : listeningWf w -> listeningWf (exec stopListening w).
Proof.
  unfold listeningWf, attached. intros H.
  destruct (isListening (this w)) eqn:L.
  - unfold exec. rewrite stopListening_on by assumption. simpl.
    rewrite count_remove_first, H. reflexivity.
  - unfold exec. rewrite stopListening_off by assumption. simpl. now rewrite L.
Qed.

Lemma run_normal o w : completion (run o) w = Normal tt.
Proof.
  destruct o; unfold completion, run.
  - now rewrite register_eq.
  - now rewrite unregister_eq.
  - destruct (isListening (this w)) eqn:L;
      [rewrite startListening_on | rewrite startListening_off]; auto.
  - destruct (isListening (this w)) eqn:L;
      [rewrite stopListening_on | rewrite stopListening_off]; auto.
  - destruct (dispatchEvent_logs event w) as [cs ->]. reflexivity.
Qed.

Lemma run_registryWf o w :
  registryWf (shortcuts (this w)) -> registryWf (shortcuts (this (exec (run o) w))).
Proof.
  intros H. destruct o; unfold exec, run.
  - rewrite register_eq. simpl. now apply registryWf_set.
  - rewrite unregister_eq. simpl. now apply registryWf_delete.
  - destruct (isListening (this w)) eqn:L;
      [rewrite startListening_on | rewrite startListening_off]; auto.
  - destruct (isListening (this w)) eqn:L;
      [rewrite stopListening_on | rewrite stopListening_off]; auto.
  - destruct (dispatchEvent_logs event w) as [cs ->]. exact H.
Qed.

Lemma run_listeningWf o w : listeningWf w -> listeningWf (exec (run o) w).
Proof.
  intros H. destruct o; unfold run.
  - exact H.
  - exact H.
  - now apply startListening_wf.
  - now apply stopListening_wf.
  - unfold exec. destruct (dispatchEvent_logs event w) as [cs ->]. exact H.
Qed.

Lemma newWorld_wf others platform : worldWf (newWorld others platform).
Proof.
  split; [apply registryWf_empty|].
  unfold listeningWf, attached, newWorld; simpl.
  induction others as [|n r IH]; simpl; [reflexivity | exact IH].
Qed.

Lemma Reachable_wf w : Reachable w -> worldWf w.
Proof.
  induction 1 as [others platform | o w Hr [IHr IHl]].
  - apply newWorld_wf.
  - split; [now apply run_registryWf | now apply run_listeningWf].
Qed.
End Properties.

(* ================================================================== *)
(** ** Dispatch *)

(** C1.  A key event captured while the manager listens, on a target that
    is not an editable surface: when the canonical key of the event's
    modifier flags and primary key is bound, the dispatch suppresses the
    default behaviour, stops the propagation and then calls the bound
    handler, once, and does nothing else; when it is not bound, the
    dispatch does nothing at all (no suppression, no call, bindings and
    listening flag as they were). *)
Theorem dispatch_bound_or_nothing {host : HostStrings}
    (w : World) (event : KeyboardEvent.t) :
  Reachable w ->
  isListening (this w) = true ->
  ~ editableSurface (KeyboardEvent.target event) ->
  (forall b,
      JsMap.get (shortcuts (this w)) (getShortcutKey (eventCombination event)) = Some b ->
      dispatchEvent event w =
      (Normal tt, logs [PreventDefault; StopPropagation; CallAction (action b)] w))
  /\ (JsMap.get (shortcuts (this w)) (getShortcutKey (eventCombination event)) = None ->
      dispatchEvent event w = (Normal tt, w)).
Proof.
  intros Hr Hl Hne.
  destruct (Reachable_wf w Hr) as [_ Hw].
  unfold listeningWf in Hw. rewrite Hl in Hw.
  apply isEditableTarget_false in Hne.
  rewrite (dispatchEvent_once event w Hw).
  split.
  - intros b Hb. now apply handleKeyDown_found.
  - intros Hn. now apply handleKeyDown_absent.
Qed.

Lemma dispatch_bound_or_nothing_witness :
  Reachable mounted
  /\ isListening (this mounted) = true
  /\ ~ editableSurface (KeyboardEvent.target (ctrl_shift_S page))
  /\ dispatchEvent (ctrl_shift_S page) mounted =
     (Normal tt, logs [PreventDefault; StopPropagation; CallAction 2] mounted)
  /\ dispatchEvent (alt_z page) mounted = (Normal tt, mounted).
Proof.
  assert (R : Reachable mounted).
  { unfold mounted, setupKeyboardShortcuts.
    apply (Reachable_run OpStartListening).
    do 6 apply (Reachable_run (OpRegister _)).
    apply Reachable_new. }
  assert (L : isListening (this mounted) = true) by reflexivity.
  assert (E : forall t, t = page -> ~ editableSurface t).
  { intros t ->. unfold editableSurface, textInput, textArea, contentEditable; simpl.
    intros [H | [H | H]]; discriminate. }
  split; [exact R|]. split; [exact L|]. split; [now apply E|].
  split.
  - destruct (dispatch_bound_or_nothing mounted (ctrl_shift_S page) R L (E _ eq_refl))
      as [Hbound _].
    apply (Hbound (DEFAULT_SHORTCUTS.SELECT_REGION 2)). reflexivity.
  - destruct (dispatch_bound_or_nothing mounted (alt_z page) R L (E _ eq_refl))
      as [_ Hnone].
    apply Hnone. reflexivity.
Defined.

(** C2.  A key event whose target is a text input field, a text area or a
    content-editable element calls no handler and suppresses nothing,
    whatever is bound to its modifiers and key: the dispatch leaves the
    world, log included, as it found it, however the listener is attached. *)
Theorem editable_target_excluded {host : HostStrings}
    (w : World) (event : KeyboardEvent.t) :
  editableSurface (KeyboardEvent.target event) ->
  handleKeyDown event w = (Normal tt, w)
  /\ dispatchEvent event w = (Normal tt, w).
Proof.
  intros He. apply isEditableTarget_true in He.
  assert (H : forall w', handleKeyDown event w' = (Normal tt, w'))
    by (intros w'; now apply handleKeyDown_editable).
  split; [apply H|].
  unfold dispatchEvent. generalize (keydownListeners w) as ls.
  intros ls. rewrite call_listeners_times.
  induction (count_occ Listener_eq_dec ls BoundHandleKeyDown) as [|n IH]; simpl.
  - reflexivity.
  - unfold bind. now rewrite H.
Qed.

Lemma editable_target_excluded_witness :
  editableSurface (KeyboardEvent.target (ctrl_shift_S inputField))
  /\ JsMap.get (shortcuts (this mounted))
               (getShortcutKey (eventCombination (ctrl_shift_S inputField)))
     = Some (DEFAULT_SHORTCUTS.SELECT_REGION 2)
  /\ dispatchEvent (ctrl_shift_S inputField) mounted = (Normal tt, mounted).
Proof.
  assert (E : editableSurface (KeyboardEvent.target (ctrl_shift_S inputField)))
    by (left; reflexivity).
  split; [exact E|]. split; [reflexivity|].
  apply (editable_target_excluded mounted (ctrl_shift_S inputField) E).
Defined.

(* ================================================================== *)
(** ** The registry *)

(** C3.  Whatever operation runs (register, unregister, startListening,
    stopListening, a dispatched key event), it returns without error and
    the registry keeps at most one binding per canonical combination.
    Registering B1 and then B2 under one combination leaves one binding for
    it, B2 (the registry does not grow with the second call, and holds one
    entry if it was empty before); a dispatch of that combination then calls
    B2's handler and not B1's. *)
Theorem one_binding_per_combination {host : HostStrings} :
  (forall w o,
      Reachable w ->
      completion (run o) w = Normal tt
      /\ atMostOnePerCombination (shortcuts (this (exec (run o) w))))
  /\ (forall w b1 b2 event,
      Reachable w ->
      getShortcutKey (asPartial b1) = getShortcutKey (asPartial b2) ->
      getShortcutKey (eventCombination event) = getShortcutKey (asPartial b2) ->
      ~ editableSurface (KeyboardEvent.target event) ->
      let w1 := exec (register b1) w in
      let w2 := exec (register b2) w1 in
      completion (register b1) w = Normal tt
      /\ completion (register b2) w1 = Normal tt
      /\ bindingsFor (getShortcutKey (asPartial b2)) (shortcuts (this w2)) = [b2]
      /\ JsMap.size (shortcuts (this w2)) = JsMap.size (shortcuts (this w1))
      /\ (shortcuts (this w) = JsMap.empty -> JsMap.size (shortcuts (this w2)) = 1)
      /\ handleKeyDown event w2 =
         (Normal tt, logs [PreventDefault; StopPropagation; CallAction (action b2)] w2)
      /\ (action b1 <> action b2 ->
          ~ In (CallAction (action b1)) (newCalls w2 (exec (handleKeyDown event) w2)))).
Proof.
  split.
  - intros w o Hr. split; [apply run_normal|].
    apply registryWf_atMostOne, run_registryWf.
    now destruct (Reachable_wf w Hr).
  - intros w b1 b2 event Hr E Eev Hne w1 w2.
    destruct (Reachable_wf w Hr) as [Hwf _].
    assert (Hwf2 : registryWf (shortcuts (this w2))).
    { apply (run_registryWf (OpRegister b2)), (run_registryWf (OpRegister b1)), Hwf. }
    assert (G : JsMap.get (shortcuts (this w2)) (getShortcutKey (asPartial b2)) = Some b2).
    { subst w2 w1. rewrite register_twice by assumption. apply JsMapFacts.get_set_same. }
    assert (K : handleKeyDown event w2 =
                (Normal tt, logs [PreventDefault; StopPropagation; CallAction (action b2)] w2)).
    { apply handleKeyDown_found; [now apply isEditableTarget_false | now rewrite Eev]. }
    repeat split.
    + rewrite bindingsFor_get by assumption. now rewrite G.
    + change (shortcuts (this w2))
        with (JsMap.set (shortcuts (this w1)) (getShortcutKey (asPartial b2)) b2).
      apply JsMapFacts.size_set_present.
      change (shortcuts (this w1))
        with (JsMap.set (shortcuts (this w)) (getShortcutKey (asPartial b1)) b1).
      rewrite <- E.
      destruct (in_dec string_dec (getShortcutKey (asPartial b1))
                       (JsMap.keys (JsMap.set (shortcuts (this w))
                                              (getShortcutKey (asPartial b1)) b1)))
        as [Hin | Hnin]; [assumption|].
      apply JsMapFacts.get_None_notin in Hnin.
      rewrite JsMapFacts.get_set_same in Hnin. discriminate.
    + intros Hempty. subst w2 w1. rewrite register_twice by assumption.
      now rewrite Hempty.
    + exact K.
    + intros Hd Hin. unfold exec in Hin. rewrite K in Hin. simpl in Hin.
      rewrite newCalls_logs in Hin. simpl in Hin.
      destruct Hin as [H | [H | [H | []]]]; try discriminate.
      injection H as H. auto.
Qed.

Lemma one_binding_per_combination_witness :
  let w := newWorld [] "Win32" in
  let b1 := DEFAULT_SHORTCUTS.TAKE_SCREENSHOT 1 in
  let b2 := mkShortcutAction (Some "S") (Some true) None None None "Save" 9 in
  let event := KeyboardEvent.mk "s" true false false false page in
  let w2 := exec (register b2) (exec (register b1) w) in
  Reachable w
  /\ getShortcutKey (asPartial b1) = getShortcutKey (asPartial b2)
  /\ getShortcutKey (eventCombination event) = getShortcutKey (asPartial b2)
  /\ ~ editableSurface (KeyboardEvent.target event)
  /\ action b1 <> action b2
  /\ JsMap.size (shortcuts (this w2)) = 1
  /\ handleKeyDown event w2 =
     (Normal tt, logs [PreventDefault; StopPropagation; CallAction 9] w2)
  /\ ~ In (CallAction 1) (newCalls w2 (exec (handleKeyDown event) w2)).
Proof.
  intros w b1 b2 event w2.
  assert (R : Reachable w) by apply Reachable_new.
  assert (E1 : getShortcutKey (asPartial b1) = getShortcutKey (asPartial b2)) by reflexivity.
  assert (E2 : getShortcutKey (eventCombination event) = getShortcutKey (asPartial b2))
    by reflexivity.
  assert (N : ~ editableSurface (KeyboardEvent.target event)).
  { unfold editableSurface, textInput, textArea, contentEditable; simpl.
    intros [H | [H | H]]; discriminate. }
  assert (D : action b1 <> action b2) by discriminate.
  destruct one_binding_per_combination as [_ Hcollide].
  destruct (Hcollide w b1 b2 event R E1 E2 N) as (_ & _ & _ & _ & Hsize & Hcall & Hnever).
  split; [exact R|]. split; [exact E1|]. split; [exact E2|].
  split; [exact N|]. split; [exact D|].
  split; [exact (Hsize eq_refl)|]. split; [exact Hcall|].
  exact (Hnever D).
Defined.

(** C6.  [unregister] finds the entry by the canonical key of whatever
    fields it is given: description and handler play no part.  It returns
    without error; afterwards nothing is bound to that key, every other key
    is bound as before, the registry is one entry shorter when the key was
    bound, and the rest of the world is untouched.  When nothing was bound
    to the key, the call changes nothing. *)
Theorem unregister_by_combination {host : HostStrings} :
  (forall k c a s m d h w,
      unregister (Partial.mk k c a s m d h) w = unregister (Partial.mk k c a s m None None) w)
  /\ (forall p w,
      Reachable w ->
      let c := getShortcutKey p in
      let w' := exec (unregister p) w in
      completion (unregister p) w = Normal tt
      /\ JsMap.get (shortcuts (this w')) c = None
      /\ (forall c', c' <> c ->
                     JsMap.get (shortcuts (this w')) c' = JsMap.get (shortcuts (this w)) c')
      /\ (forall b, JsMap.get (shortcuts (this w)) c = Some b ->
                    S (JsMap.size (shortcuts (this w'))) = JsMap.size (shortcuts (this w)))
      /\ isListening (this w') = isListening (this w)
      /\ keydownListeners w' = keydownListeners w
      /\ hostCalls w' = hostCalls w)
  /\ (forall p w,
      JsMap.get (shortcuts (this w)) (getShortcutKey p) = None ->
      unregister p w = (Normal tt, w)).
Proof.
  split; [|split].
  - intros. reflexivity.
  - intros p w Hr c w'. destruct (Reachable_wf w Hr) as [[Hnd _] _].
    subst w'. unfold exec, completion. rewrite unregister_eq. simpl. fold c.
    split; [reflexivity|].
    split; [now apply JsMapFacts.get_delete_same|].
    split; [intros c' Hc; apply JsMapFacts.get_delete_other; congruence|].
    split; [intros b Hb; eapply JsMapFacts.size_delete_present; eauto|].
    repeat split.
  - intros p w Hn. rewrite unregister_eq, JsMapFacts.delete_absent by assumption.
    destruct w as [[m l] ls pf cs]. reflexivity.
Qed.

Lemma unregister_by_combination_witness :
  let unknown := Partial.mk (Some "z") None (Some true) None None None None in
  let region := Partial.mk (Some "S") (Some true) None (Some true) None None None in
  Reachable mounted
  /\ JsMap.get (shortcuts (this mounted)) (getShortcutKey unknown) = None
  /\ unregister unknown mounted = (Normal tt, mounted)
  /\ JsMap.get (shortcuts (this mounted)) (getShortcutKey region)
     = Some (DEFAULT_SHORTCUTS.SELECT_REGION 2)
  /\ JsMap.get (shortcuts (this (exec (unregister region) mounted))) (getShortcutKey region)
     = None
  /\ S (JsMap.size (shortcuts (this (exec (unregister region) mounted))))
     = JsMap.size (shortcuts (this mounted)).
Proof.
  intros unknown region.
  assert (R : Reachable mounted).
  { unfold mounted, setupKeyboardShortcuts.
    apply (Reachable_run OpStartListening).
    do 6 apply (Reachable_run (OpRegister _)).
    apply Reachable_new. }
  assert (U : JsMap.get (shortcuts (this mounted)) (getShortcutKey unknown) = None)
    by reflexivity.
  assert (G : JsMap.get (shortcuts (this mounted)) (getShortcutKey region)
              = Some (DEFAULT_SHORTCUTS.SELECT_REGION 2)) by reflexivity.
  destruct unregister_by_combination as (_ & Hremove & Hnoop).
  destruct (Hremove region mounted R) as (_ & Hgone & _ & Hsize & _).
  split; [exact R|]. split; [exact U|]. split; [exact (Hnoop unknown mounted U)|].
  split; [exact G|]. split; [exact Hgone|].
  exact (Hsize _ G).
Defined.

(* ================================================================== *)
(** ** Listening *)

(** C5.  From any state the manager can reach: [startListening] returns
    without error and a second call right after it changes nothing, not
    even the log of host calls (no second attach); after the two calls the
    flag is true, the bound listener is attached once and a key event runs
    the dispatch once.  [stopListening] returns without error; when the
    manager is not listening it changes nothing (no detach is attempted),
    also on a manager that never started; after it the flag is false and the
    listener is detached, and a second call changes nothing. *)
Theorem listening_toggle_idempotent {host : HostStrings} :
  (forall w,
      Reachable w ->
      let w1 := exec startListening w in
      let w2 := exec startListening w1 in
      let v1 := exec stopListening w in
      completion startListening w = Normal tt
      /\ startListening w1 = (Normal tt, w1)
      /\ newCalls w1 w2 = []
      /\ isListening (this w2) = true
      /\ attached w2 = 1
      /\ (forall event, dispatchEvent event w2 = handleKeyDown event w2)
      /\ (isListening (this w) = false -> stopListening w = (Normal tt, w))
      /\ completion stopListening w = Normal tt
      /\ isListening (this v1) = false
      /\ attached v1 = 0
      /\ stopListening v1 = (Normal tt, v1))
  /\ (forall others platform,
      stopListening (newWorld others platform) = (Normal tt, newWorld others platform)).
Proof.
  split.
  - intros w Hr w1 w2 v1.
    assert (L1 : isListening (this w1) = true).
    { subst w1. unfold exec. destruct (isListening (this w)) eqn:L;
        [rewrite startListening_on | rewrite startListening_off]; auto. }
    assert (S1 : startListening w1 = (Normal tt, w1)) by now apply startListening_on.
    assert (W2 : w2 = w1) by (subst w2; unfold exec; now rewrite S1).
    assert (A1 : attached w1 = 1).
    { assert (H : listeningWf w1)
        by (apply (run_listeningWf OpStartListening); now destruct (Reachable_wf w Hr)).
      unfold listeningWf in H. now rewrite L1 in H. }
    assert (L0 : isListening (this v1) = false).
    { subst v1. unfold exec. destruct (isListening (this w)) eqn:L;
        [rewrite stopListening_on | rewrite stopListening_off]; auto. }
    assert (A0 : attached v1 = 0).
    { assert (H : listeningWf v1)
        by (apply (run_listeningWf OpStopListening); now destruct (Reachable_wf w Hr)).
      unfold listeningWf in H. now rewrite L0 in H. }
    split; [apply (run_normal OpStartListening)|].
    split; [exact S1|].
    rewrite W2.
    split; [rewrite <- (logs_nil w1) at 2; apply newCalls_logs|].
    split; [exact L1|]. split; [exact A1|].
    split; [intros event; now apply dispatchEvent_once|].
    split; [apply stopListening_off|].
    split; [apply (run_normal OpStopListening)|].
    split; [exact L0|]. split; [exact A0|].
    now apply stopListening_off.
  - intros others platform. now apply stopListening_off.
Qed.

Lemma listening_toggle_idempotent_witness :
  let w := newWorld [5] "MacIntel" in
  let w2 := exec startListening (exec startListening w) in
  Reachable w
  /\ isListening (this w) = false
  /\ keydownListeners w2 = [Foreign 5; BoundHandleKeyDown]
  /\ hostCalls w2 = [AddEventListener BoundHandleKeyDown]
  /\ attached w2 = 1
  /\ stopListening w = (Normal tt, w).
Proof.
  intros w w2.
  assert (R : Reachable w) by apply Reachable_new.
  assert (L : isListening (this w) = false) by reflexivity.
  destruct listening_toggle_idempotent as [Htoggle _].
  destruct (Htoggle w R) as (_ & _ & _ & _ & Hone & _ & Hstop & _).
  split; [exact R|]. split; [exact L|].
  split; [reflexivity|]. split; [reflexivity|].
  split; [exact Hone|].
  exact (Hstop L).
Defined.

(* ================================================================== *)
(** ** The canonical key *)

Ltac host_eval :=
  rewrite ?toLowerCase_basic_latin, ?toUpperCase_basic_latin by reflexivity.

Lemma getShortcutKey_keyed {host : HostStrings} (p : Partial.t) (k : string) :
  Partial.key p = Some k -> k <> "" ->
  getShortcutKey p =
  canonicalKey_stated (truthy_flag (Partial.ctrlKey p)) (truthy_flag (Partial.altKey p))
                      (truthy_flag (Partial.shiftKey p)) (truthy_flag (Partial.metaKey p)) k.
Proof.
  intros Hk Hne. rewrite getShortcutKey_parts, Hk. unfold canonicalKey_stated, keyPart.
  destruct k; [contradiction | reflexivity].
Qed.

Lemma getShortcutKey_unkeyed {host : HostStrings} (p : Partial.t) :
  truthy_string (Partial.key p) = false ->
  getShortcutKey p =
  modifierPrefix (truthy_flag (Partial.ctrlKey p)) (truthy_flag (Partial.altKey p))
                 (truthy_flag (Partial.shiftKey p)) (truthy_flag (Partial.metaKey p)).
Proof.
  intros Hk. rewrite getShortcutKey_parts. unfold modifierPrefix, keyPart.
  rewrite Hk. now rewrite !app_nil_r.
Qed.

(** C4, as stated, at a binding with an empty primary key: the stated
    canonical key of control with the key [""] ends in the separator, the
    code's does not. *)
Lemma canonical_key_empty_key_counterexample :
  let b := mkShortcutAction (Some "") (Some true) None None None "Save" 1 in
  getShortcutKey (asPartial b) = "ctrl"
  /\ canonicalKey_stated true false false false "" = "ctrl+"
  /\ getShortcutKey (asPartial b)
     <> canonicalKey_stated (truthy_flag (ctrlKey b)) (truthy_flag (altKey b))
                            (truthy_flag (shiftKey b)) (truthy_flag (metaKey b)) "".
Proof.
  simpl. split; [reflexivity|]. split; [reflexivity|]. discriminate.
Qed.

(** C4, amended.  For a binding with a non-empty primary key, the canonical
    key is the names of the present modifiers in the order control, alt,
    shift, meta, then the lowercased key, joined by "+"; a key that is
    missing or empty adds nothing, not even a separator.  Bindings and
    events are told apart by that key alone: after [register b], a lookup
    by a combination finds [b] when the canonical keys are equal and is not
    affected by [b] when they differ.  The primary key counts up to case:
    key "s" is matched by an event with key "S". *)
Theorem canonical_key_of_binding {host : HostStrings} :
  (forall b k,
      key b = Some k -> k <> "" ->
      getShortcutKey (asPartial b) =
      canonicalKey_stated (truthy_flag (ctrlKey b)) (truthy_flag (altKey b))
                          (truthy_flag (shiftKey b)) (truthy_flag (metaKey b)) k)
  /\ (forall b,
      truthy_string (key b) = false ->
      getShortcutKey (asPartial b) =
      modifierPrefix (truthy_flag (ctrlKey b)) (truthy_flag (altKey b))
                     (truthy_flag (shiftKey b)) (truthy_flag (metaKey b)))
  /\ (forall w b p,
      let found := JsMap.get (shortcuts (this (exec (register b) w))) (getShortcutKey p) in
      (getShortcutKey p = getShortcutKey (asPartial b) -> found = Some b)
      /\ (getShortcutKey p <> getShortcutKey (asPartial b) ->
          found = JsMap.get (shortcuts (this w)) (getShortcutKey p)))
  /\ (forall b k event,
      key b = Some k -> k <> "" -> KeyboardEvent.key event <> "" ->
      toLowerCase (KeyboardEvent.key event) = toLowerCase k ->
      KeyboardEvent.ctrlKey event = truthy_flag (ctrlKey b) ->
      KeyboardEvent.altKey event = truthy_flag (altKey b) ->
      KeyboardEvent.shiftKey event = truthy_flag (shiftKey b) ->
      KeyboardEvent.metaKey event = truthy_flag (metaKey b) ->
      getShortcutKey (eventCombination event) = getShortcutKey (asPartial b))
  /\ (forall w d h target,
      ~ editableSurface target ->
      let b := mkShortcutAction (Some "s") None None None None d h in
      let event := KeyboardEvent.mk "S" false false false false target in
      handleKeyDown event (exec (register b) w) =
      (Normal tt, logs [PreventDefault; StopPropagation; CallAction h] (exec (register b) w))).
Proof.
  assert (Hcase : forall b k event,
      key b = Some k -> k <> "" -> KeyboardEvent.key event <> "" ->
      toLowerCase (KeyboardEvent.key event) = toLowerCase k ->
      KeyboardEvent.ctrlKey event = truthy_flag (ctrlKey b) ->
      KeyboardEvent.altKey event = truthy_flag (altKey b) ->
      KeyboardEvent.shiftKey event = truthy_flag (shiftKey b) ->
      KeyboardEvent.metaKey event = truthy_flag (metaKey b) ->
      getShortcutKey (eventCombination event) = getShortcutKey (asPartial b)).
  { intros b k event Hk Hne Hne' Hl Hc Ha Hs Hm.
    rewrite (getShortcutKey_keyed (asPartial b) k Hk Hne).
    rewrite (getShortcutKey_keyed (eventCombination event) (KeyboardEvent.key event) eq_refl Hne').
    unfold canonicalKey_stated, eventCombination, asPartial.
    cbn [Partial.ctrlKey Partial.altKey Partial.shiftKey Partial.metaKey].
    rewrite Hl, Hc, Ha, Hs, Hm.
    now destruct (truthy_flag (ctrlKey b)), (truthy_flag (altKey b)),
      (truthy_flag (shiftKey b)), (truthy_flag (metaKey b)). }
  split; [|split; [|split; [|split]]].
  - intros b k Hk Hne. now apply (getShortcutKey_keyed (asPartial b)).
  - intros b Hk. now apply (getShortcutKey_unkeyed (asPartial b)).
  - intros w b p found. subst found. unfold exec. rewrite register_eq. simpl. split.
    + intros ->. apply JsMapFacts.get_set_same.
    + intros Hne. apply JsMapFacts.get_set_other. congruence.
  - exact Hcase.
  - intros w d h target Hne b event.
    apply (handleKeyDown_found event (exec (register b) w) b).
    + now apply isEditableTarget_false.
    + unfold exec. rewrite register_eq. simpl.
      rewrite (Hcase b "s" event); try reflexivity; try discriminate.
      * apply JsMapFacts.get_set_same.
      * simpl. now host_eval.
Qed.

Lemma canonical_key_of_binding_witness :
  let b := DEFAULT_SHORTCUTS.SELECT_REGION 2 in
  let w := exec (register (mkShortcutAction (Some "s") None None None None "Search" 7))
                mounted in
  key b = Some "s" /\ "s" <> ""
  /\ getShortcutKey (asPartial b) = "ctrl+shift+s"
  /\ ~ editableSurface page
  /\ handleKeyDown (KeyboardEvent.mk "S" false false false false page) w
     = (Normal tt, logs [PreventDefault; StopPropagation; CallAction 7] w).
Proof.
  intros b w.
  assert (K : key b = Some "s") by reflexivity.
  assert (N : "s" <> "") by discriminate.
  assert (E : ~ editableSurface page).
  { unfold editableSurface, textInput, textArea, contentEditable; simpl.
    intros [H | [H | H]]; discriminate. }
  destruct (canonical_key_of_binding (host := basic_latin_host)) as (Hkey & _ & _ & _ & Hs).
  split; [exact K|]. split; [exact N|].
  split; [exact (Hkey b "s" K N)|]. split; [exact E|].
  exact (Hs mounted "Search" 7 page E).
Defined.

(** C9.  A binding registered without a primary key (the field is absent,
    or empty): [register] returns without error and the binding is stored
    under the names of its present modifiers joined by "+", with no key
    part. *)
Theorem register_without_key {host : HostStrings} (w : World) (b : ShortcutAction) :
  key b = None \/ key b = Some "" ->
  let c := modifierPrefix (truthy_flag (ctrlKey b)) (truthy_flag (altKey b))
                          (truthy_flag (shiftKey b)) (truthy_flag (metaKey b)) in
  getShortcutKey (asPartial b) = c
  /\ completion (register b) w = Normal tt
  /\ JsMap.get (shortcuts (this (exec (register b) w))) c = Some b.
Proof.
  intros Hk c.
  assert (E : getShortcutKey (asPartial b) = c).
  { apply (getShortcutKey_unkeyed (asPartial b)). simpl. now destruct Hk as [-> | ->]. }
  split; [exact E|]. split; [reflexivity|].
  unfold exec. rewrite register_eq. simpl. rewrite E.
  apply JsMapFacts.get_set_same.
Qed.

Lemma register_without_key_witness :
  let b := mkShortcutAction None (Some true) (Some true) None None "No key" 3 in
  (key b = None \/ key b = Some "")
  /\ getShortcutKey (asPartial b) = "ctrl+alt"
  /\ completion (register b) mounted = Normal tt
  /\ JsMap.get (shortcuts (this (exec (register b) mounted))) "ctrl+alt" = Some b.
Proof.
  intros b.
  assert (K : key b = None \/ key b = Some "") by (left; reflexivity).
  split; [exact K|].
  exact (register_without_key mounted b K).
Defined.

(** The same binding cannot be formatted: [formatShortcut] reads
    [shortcut.key.toLowerCase()] unguarded. *)
Example formatShortcut_without_key_throws :
  completion (formatShortcut (mkShortcutAction None (Some true) None None None "No key" 3))
             mounted
  = Throw TypeError.
Proof. reflexivity. Qed.

(** C10.  The canonical key does not determine the modifier flags and the
    primary key: alt with key "x" and no modifier with key "alt+x" have one
    canonical key, and so have control with no key and no modifier with key
    "ctrl".  Registered one after the other in a fresh manager, the second
    binding of each pair is the only entry left. *)
Theorem canonical_key_not_injective {host : HostStrings} :
  let alt_x := mkShortcutAction (Some "x") None (Some true) None None "first" 1 in
  let altx := mkShortcutAction (Some "alt+x") None None None None "second" 2 in
  let ctrl_only := mkShortcutAction None (Some true) None None None "third" 3 in
  let ctrl_word := mkShortcutAction (Some "ctrl") None None None None "fourth" 4 in
  (exists b1 b2,
      key b1 <> key b2 /\ altKey b1 <> altKey b2
      /\ getShortcutKey (asPartial b1) = getShortcutKey (asPartial b2))
  /\ getShortcutKey (asPartial alt_x) = "alt+x"
  /\ getShortcutKey (asPartial altx) = "alt+x"
  /\ getShortcutKey (asPartial ctrl_only) = "ctrl"
  /\ getShortcutKey (asPartial ctrl_word) = "ctrl"
  /\ (forall others platform,
      shortcuts (this (exec (register altx) (exec (register alt_x) (newWorld others platform))))
      = [("alt+x", altx)]
      /\ shortcuts (this (exec (register ctrl_word)
                              (exec (register ctrl_only) (newWorld others platform))))
         = [("ctrl", ctrl_word)]).
Proof.
  intros alt_x altx ctrl_only ctrl_word.
  assert (E1 : getShortcutKey (asPartial alt_x) = "alt+x")
    by (rewrite getShortcutKey_parts; simpl; unfold keyPart; simpl; now host_eval).
  assert (E2 : getShortcutKey (asPartial altx) = "alt+x")
    by (rewrite getShortcutKey_parts; simpl; unfold keyPart; simpl; now host_eval).
  assert (E3 : getShortcutKey (asPartial ctrl_only) = "ctrl") by reflexivity.
  assert (E4 : getShortcutKey (asPartial ctrl_word) = "ctrl")
    by (rewrite getShortcutKey_parts; simpl; unfold keyPart; simpl; now host_eval).
  split.
  - exists alt_x, altx. split; [discriminate|]. split; [discriminate|]. congruence.
  - split; [exact E1|]. split; [exact E2|]. split; [exact E3|]. split; [exact E4|].
    intros others platform. split.
    + rewrite register_twice by congruence. rewrite E2. reflexivity.
    + rewrite register_twice by congruence. rewrite E4. reflexivity.
Qed.

(* ================================================================== *)
(** ** Display format *)

Lemma formatShortcut_label {host : HostStrings} (b : ShortcutAction) (k : string) (w : World) :
  key b = Some k ->
  formatShortcut b w =
  (Normal (displayLabel (macLike (navigatorPlatform w))
                        (truthy_flag (ctrlKey b)) (truthy_flag (altKey b))
                        (truthy_flag (shiftKey b)) (truthy_flag (metaKey b)) k),
   w).
Proof.
  intros Hk.
  unfold formatShortcut, navigator_platform, bind, ret, displayLabel, modifierLabels,
    keyGlyph, macLike, push.
  rewrite Hk. f_equal. f_equal.
  set (lower := toLowerCase k). set (upper := toUpperCase k).
  assert (G : (if String.eqb lower "enter" then "↵"
               else if String.eqb lower "escape" then "Esc"
               else if String.eqb lower "arrowup" then "↑"
               else if String.eqb lower "arrowdown" then "↓"
               else if String.eqb lower "arrowleft" then "←"
               else if String.eqb lower "arrowright" then "→"
               else if String.eqb lower " " then "Space"
               else upper)
              = match JsMap.get glyphTable lower with Some g => g | None => upper end).
  { unfold glyphTable, JsMap.get.
    rewrite !(String.eqb_sym lower).
    repeat match goal with
           | |- context [String.eqb ?a lower] => destruct (String.eqb a lower)
           end; reflexivity. }
  rewrite G.
  destruct (Z.leb 0 (indexOf (toUpperCase (navigatorPlatform w)) "MAC")),
    (truthy_flag (ctrlKey b)), (truthy_flag (altKey b)),
    (truthy_flag (shiftKey b)), (truthy_flag (metaKey b)); reflexivity.
Qed.

(** C7.  [formatShortcut] lists the modifiers in the order control, alt,
    shift, meta and then the key glyph.  On a macOS-like platform the
    modifiers are the glyphs for control, alt and shift, nothing separates
    the parts, and meta is never shown; elsewhere they are the words Ctrl,
    Alt, Shift, Meta and the parts are joined by "+".  Control with key
    "Enter" is "Ctrl+" and the return glyph off macOS, and the command glyph
    and the return glyph on it.  A key outside the glyph table is shown
    upper-cased. *)
Theorem formatShortcut_display {host : HostStrings} :
  (forall b k w,
      key b = Some k ->
      formatShortcut b w =
      (Normal (displayLabel (macLike (navigatorPlatform w))
                            (truthy_flag (ctrlKey b)) (truthy_flag (altKey b))
                            (truthy_flag (shiftKey b)) (truthy_flag (metaKey b)) k),
       w))
  /\ (forall b k w,
      key b = Some k ->
      JsMap.get glyphTable (toLowerCase k) = None ->
      completion (formatShortcut b) w =
      Normal (join (if macLike (navigatorPlatform w) then "" else "+")
                   (modifierLabels (macLike (navigatorPlatform w))
                                   (truthy_flag (ctrlKey b)) (truthy_flag (altKey b))
                                   (truthy_flag (shiftKey b)) (truthy_flag (metaKey b))
                    ++ [toUpperCase k])))
  /\ (forall k c a s m m' d h w,
      macLike (navigatorPlatform w) = true ->
      formatShortcut (mkShortcutAction (Some k) c a s m d h) w =
      formatShortcut (mkShortcutAction (Some k) c a s m' d h) w)
  /\ (forall d h w,
      let b := mkShortcutAction (Some "Enter") (Some true) None None None d h in
      (macLike (navigatorPlatform w) = false -> completion (formatShortcut b) w = Normal "Ctrl+↵")
      /\ (macLike (navigatorPlatform w) = true -> completion (formatShortcut b) w = Normal "⌘↵")).
Proof.
  split; [|split; [|split]].
  - intros b k w Hk. now apply formatShortcut_label.
  - intros b k w Hk Hg. unfold completion.
    rewrite (formatShortcut_label b k w Hk). simpl.
    unfold displayLabel, keyGlyph. now rewrite Hg.
  - intros k c a s m m' d h w Hmac.
    rewrite !(formatShortcut_label _ k) by reflexivity. simpl.
    rewrite Hmac. reflexivity.
  - intros d h w b. unfold completion.
    rewrite (formatShortcut_label b "Enter" w eq_refl). simpl.
    unfold displayLabel, keyGlyph. host_eval.
    split; intros ->; reflexivity.
Qed.

Lemma formatShortcut_display_witness :
  let win := newWorld [] "Win32" in
  let mac := newWorld [] "MacIntel" in
  let enter := mkShortcutAction (Some "Enter") (Some true) None None None "Send" 1 in
  let b := mkShortcutAction (Some "k") (Some true) None (Some true) (Some true) "Palette" 2 in
  macLike (navigatorPlatform win) = false
  /\ macLike (navigatorPlatform mac) = true
  /\ JsMap.get glyphTable (toLowerCase "k") = None
  /\ completion (formatShortcut enter) win = Normal "Ctrl+↵"
  /\ completion (formatShortcut enter) mac = Normal "⌘↵"
  /\ completion (formatShortcut b) win = Normal "Ctrl+Shift+Meta+K"
  /\ completion (formatShortcut b) mac = Normal "⌘⇧K".
Proof.
  intros win mac enter b.
  assert (W : macLike (navigatorPlatform win) = false) by reflexivity.
  assert (A : macLike (navigatorPlatform mac) = true) by reflexivity.
  assert (G : JsMap.get glyphTable (toLowerCase "k") = None) by reflexivity.
  destruct (formatShortcut_display (host := basic_latin_host)) as (_ & Hother & _ & Henter).
  split; [exact W|]. split; [exact A|]. split; [exact G|].
  split; [exact (proj1 (Henter "Send" 1 win) W)|].
  split; [exact (proj2 (Henter "Send" 1 mac) A)|].
  split; [exact (Hother b "k" win eq_refl G)|].
  exact (Hother b "k" mac eq_refl G).
Defined.

(** C8.  [formatShortcut] and [getShortcutKey] are functions of the
    binding's modifier flags and primary key alone (and, for the format, of
    the platform the host reports): two calls that agree on these return
    the same result, whatever the manager holds and whatever description
    and handler the bindings carry; and [formatShortcut] leaves the world as
    it found it. *)
Theorem canonicalization_deterministic {host : HostStrings}
    (b1 b2 : ShortcutAction) (w1 w2 : World) :
  key b1 = key b2 ->
  ctrlKey b1 = ctrlKey b2 -> altKey b1 = altKey b2 ->
  shiftKey b1 = shiftKey b2 -> metaKey b1 = metaKey b2 ->
  navigatorPlatform w1 = navigatorPlatform w2 ->
  completion (formatShortcut b1) w1 = completion (formatShortcut b2) w2
  /\ exec (formatShortcut b1) w1 = w1
  /\ getShortcutKey (asPartial b1) = getShortcutKey (asPartial b2).
Proof.
  intros Hk Hc Ha Hs Hm Hp.
  split; [|split].
  - unfold completion. destruct (key b2) as [k|] eqn:K2.
    + rewrite (formatShortcut_label b1 k w1 Hk), (formatShortcut_label b2 k w2 K2).
      simpl. now rewrite Hc, Ha, Hs, Hm, Hp.
    + unfold formatShortcut, navigator_platform, bind. now rewrite Hk, K2.
  - unfold exec. destruct (key b1) as [k|] eqn:K1.
    + now rewrite (formatShortcut_label b1 k w1 K1).
    + unfold formatShortcut, navigator_platform, bind. now rewrite K1.
  - rewrite !getShortcutKey_parts. simpl. now rewrite Hk, Hc, Ha, Hs, Hm.
Qed.

Lemma canonicalization_deterministic_witness :
  let b1 := DEFAULT_SHORTCUTS.TAKE_SCREENSHOT 1 in
  let b2 := mkShortcutAction (Some "s") (Some true) None None None "Save the page" 8 in
  let w2 := newWorld [3] "Win32" in
  key b1 = key b2 /\ ctrlKey b1 = ctrlKey b2 /\ altKey b1 = altKey b2
  /\ shiftKey b1 = shiftKey b2 /\ metaKey b1 = metaKey b2
  /\ navigatorPlatform mounted = navigatorPlatform w2
  /\ completion (formatShortcut b1) mounted = Normal "Ctrl+S"
  /\ completion (formatShortcut b1) mounted = completion (formatShortcut b2) w2
  /\ exec (formatShortcut b1) mounted = mounted
  /\ getShortcutKey (asPartial b1) = getShortcutKey (asPartial b2).
Proof.
  intros b1 b2 w2.
  do 7 (split; [reflexivity|]).
  exact (canonicalization_deterministic (host := basic_latin_host)
           b1 b2 mounted w2 eq_refl eq_refl eq_refl eq_refl eq_refl eq_refl).
Defined.

(* ================================================================== *)
(** ** More on the registry: snapshots, shadowing, round trips *)

Lemma JsMap_set_set {V : Type} (m : JsMap.t V) k v1 v2 :
  JsMap.set (JsMap.set m k v1) k v2 = JsMap.set m k v2.
Proof.
  induction m as [|[k' v'] r IH]; simpl.
  - now rewrite String.eqb_refl.
  - destruct (String.eqb k' k) eqn:E; simpl.
    + now rewrite String.eqb_refl.
    + now rewrite E, IH.
Qed.

Lemma JsMap_delete_set_absent {V : Type} (m : JsMap.t V) k v :
  JsMap.get m k = None -> JsMap.delete (JsMap.set m k v) k = m.
Proof.
  induction m as [|[k' v'] r IH]; simpl.
  - now rewrite String.eqb_refl.
  - destruct (String.eqb k' k) eqn:E; [discriminate|].
    intros H. simpl. now rewrite E, IH.
Qed.

Lemma JsMap_values_set_absent {V : Type} (m : JsMap.t V) k v :
  JsMap.get m k = None -> JsMap.values (JsMap.set m k v) = JsMap.values m ++ [v].
Proof.
  unfold JsMap.values. induction m as [|[k' v'] r IH]; simpl; [reflexivity|].
  destruct (String.eqb k' k); [discriminate|]. intros H. simpl. now rewrite IH.
Qed.

Lemma JsMap_values_set_present {V : Type} (m : JsMap.t V) k v v0 :
  JsMap.get m k = Some v0 ->
  exists l1 l2,
    JsMap.values m = l1 ++ v0 :: l2 /\ JsMap.values (JsMap.set m k v) = l1 ++ v :: l2.
Proof.
  unfold JsMap.values. induction m as [|[k' v'] r IH]; simpl; [discriminate|].
  destruct (String.eqb k' k) eqn:E.
  - intros [= ->]. exists [], (map snd r). now split.
  - intros H. destruct (IH H) as (l1 & l2 & H1 & H2).
    exists (v' :: l1), l2. simpl. now rewrite H1, H2.
Qed.

Lemma JsMap_get_of_in {V : Type} (m : JsMap.t V) k v :
  NoDup (JsMap.keys m) -> In (k, v) m -> JsMap.get m k = Some v.
Proof.
  unfold JsMap.keys. induction m as [|[k' v'] r IH]; simpl; [tauto|].
  intros Hnd. inversion Hnd as [|? ? Hnin Hr]; subst.
  intros [[= -> ->] | Hin].
  - now rewrite String.eqb_refl.
  - destruct (String.eqb k' k) eqn:E; [|auto].
    apply String.eqb_eq in E; subst k'. exfalso. apply Hnin.
    change k with (fst (k, v)). now apply in_map.
Qed.

Lemma world_eta (w : World) :
  mkWorld (mkManager (shortcuts (this w)) (isListening (this w)))
          (keydownListeners w) (navigatorPlatform w) (hostCalls w) = w.
Proof. now destruct w as [[m l] ls pf cs]. Qed.

(** X1.  The snapshot [getShortcuts] returns is in registration order.  A
    binding registered under a new combination comes last; one registered
    under a bound combination takes the place of the binding it replaces,
    and the others keep theirs. *)
Theorem getShortcuts_after_register {host : HostStrings} (b : ShortcutAction) (w : World) :
  let c := getShortcutKey (asPartial b) in
  let m := shortcuts (this w) in
  let w' := exec (register b) w in
  (JsMap.get m c = None ->
   getShortcuts w' = (Normal (JsMap.values m ++ [b]), w'))
  /\ (forall b0,
      JsMap.get m c = Some b0 ->
      exists l1 l2,
        JsMap.values m = l1 ++ b0 :: l2
        /\ getShortcuts w' = (Normal (l1 ++ b :: l2), w')).
Proof.
  intros c m w'. split.
  - intros Hn. unfold getShortcuts, get_shortcuts, bind, ret.
    subst w'. unfold exec. rewrite register_eq. simpl. fold c m.
    now rewrite JsMap_values_set_absent.
  - intros b0 Hb.
    destruct (JsMap_values_set_present m c b b0 Hb) as (l1 & l2 & H1 & H2).
    exists l1, l2. split; [exact H1|].
    unfold getShortcuts, get_shortcuts, bind, ret.
    subst w'. unfold exec. rewrite register_eq. simpl. fold c m.
    now rewrite H2.
Qed.

Lemma getShortcuts_after_register_witness :
  let fresh := mkShortcutAction (Some "q") (Some true) None None None "Quit" 9 in
  let again := DEFAULT_SHORTCUTS.SELECT_REGION 8 in
  JsMap.get (shortcuts (this mounted)) (getShortcutKey (asPartial fresh)) = None
  /\ getShortcuts (exec (register fresh) mounted)
     = (Normal (JsMap.values (shortcuts (this mounted)) ++ [fresh]),
        exec (register fresh) mounted)
  /\ JsMap.get (shortcuts (this mounted)) (getShortcutKey (asPartial again))
     = Some (DEFAULT_SHORTCUTS.SELECT_REGION 2)
  /\ exists l1 l2,
      JsMap.values (shortcuts (this mounted))
      = l1 ++ DEFAULT_SHORTCUTS.SELECT_REGION 2 :: l2
      /\ getShortcuts (exec (register again) mounted)
         = (Normal (l1 ++ again :: l2), exec (register again) mounted).
Proof.
  intros fresh again.
  assert (N : JsMap.get (shortcuts (this mounted)) (getShortcutKey (asPartial fresh)) = None)
    by reflexivity.
  assert (S : JsMap.get (shortcuts (this mounted)) (getShortcutKey (asPartial again))
              = Some (DEFAULT_SHORTCUTS.SELECT_REGION 2)) by reflexivity.
  split; [exact N|].
  split; [exact (proj1 (getShortcuts_after_register fresh mounted) N)|].
  split; [exact S|].
  exact (proj2 (getShortcuts_after_register again mounted) _ S).
Defined.

Lemma keys_of_keyed {host : HostStrings} (m : JsMap.t ShortcutAction) :
  keyedByCanonical m ->
  JsMap.keys m = map (fun b => getShortcutKey (asPartial b)) (JsMap.values m).
Proof.
  unfold keyedByCanonical, JsMap.keys, JsMap.values.
  induction 1 as [|[k b] r Hk Hr IH]; simpl; [reflexivity|].
  simpl in Hk. now rewrite Hk, IH.
Qed.

(** X2.  In every state the manager can reach, the bindings [getShortcuts]
    lists have pairwise different canonical keys, and a binding is listed
    exactly when a lookup by its own canonical key finds it: what the
    snapshot shows is what a dispatch can call. *)
Theorem getShortcuts_lookup {host : HostStrings} (w : World) :
  Reachable w ->
  exists bs,
    getShortcuts w = (Normal bs, w)
    /\ NoDup (map (fun b => getShortcutKey (asPartial b)) bs)
    /\ length bs = JsMap.size (shortcuts (this w))
    /\ forall b,
        In b bs <-> JsMap.get (shortcuts (this w)) (getShortcutKey (asPartial b)) = Some b.
Proof.
  intros Hr. destruct (Reachable_wf w Hr) as [[Hnd Hk] _].
  exists (JsMap.values (shortcuts (this w))).
  split; [reflexivity|].
  split; [now rewrite <- keys_of_keyed|].
  split; [apply length_map|].
  intros b. split.
  - intros Hin. unfold JsMap.values in Hin. apply in_map_iff in Hin as ([k b'] & Hb & Hin).
    simpl in Hb; subst b'.
    unfold keyedByCanonical in Hk. rewrite Forall_forall in Hk.
    specialize (Hk _ Hin). simpl in Hk. subst k.
    now apply JsMap_get_of_in.
  - intros Hg. apply JsMapFacts.get_Some_in in Hg.
    unfold JsMap.values. change b with (snd (getShortcutKey (asPartial b), b)).
    now apply in_map.
Qed.

Lemma mounted_reachable : Reachable mounted.
Proof.
  unfold mounted, setupKeyboardShortcuts.
  apply (Reachable_run OpStartListening).
  do 6 apply (Reachable_run (OpRegister _)).
  apply Reachable_new.
Qed.

Lemma getShortcuts_lookup_witness :
  Reachable mounted
  /\ exists bs,
      getShortcuts mounted = (Normal bs, mounted)
      /\ NoDup (map (fun b => getShortcutKey (asPartial b)) bs)
      /\ length bs = JsMap.size (shortcuts (this mounted))
      /\ forall b,
          In b bs
          <-> JsMap.get (shortcuts (this mounted)) (getShortcutKey (asPartial b)) = Some b.
Proof.
  split; [exact mounted_reachable|].
  exact (getShortcuts_lookup mounted mounted_reachable).
Defined.

(** X3.  A registration under a combination leaves no trace once another
    binding is registered under the same combination: the two calls leave
    the world the second call alone would leave.  In particular registering
    the same binding twice is the same as registering it once. *)
Theorem register_shadows_earlier {host : HostStrings} (b1 b2 : ShortcutAction) (w : World) :
  getShortcutKey (asPartial b1) = getShortcutKey (asPartial b2) ->
  exec (register b2) (exec (register b1) w) = exec (register b2) w.
Proof.
  intros E. unfold exec. rewrite !register_eq. simpl.
  now rewrite E, JsMap_set_set.
Qed.

Lemma register_shadows_earlier_witness :
  let b1 := DEFAULT_SHORTCUTS.TAKE_SCREENSHOT 1 in
  let b2 := mkShortcutAction (Some "S") (Some true) (Some false) None None "Save" 9 in
  getShortcutKey (asPartial b1) = getShortcutKey (asPartial b2)
  /\ exec (register b2) (exec (register b1) mounted) = exec (register b2) mounted
  /\ exec (register b1) (exec (register b1) mounted) = exec (register b1) mounted.
Proof.
  intros b1 b2.
  assert (E : getShortcutKey (asPartial b1) = getShortcutKey (asPartial b2)) by reflexivity.
  split; [exact E|].
  split; [exact (register_shadows_earlier b1 b2 mounted E)|].
  exact (register_shadows_earlier b1 b1 mounted eq_refl).
Defined.

(** X4.  Registering a binding under a combination that is not bound and
    then unregistering it gives back the world as it was, order of the
    other entries included. *)
Theorem register_unregister_roundtrip {host : HostStrings}
    (b : ShortcutAction) (p : Partial.t) (w : World) :
  JsMap.get (shortcuts (this w)) (getShortcutKey (asPartial b)) = None ->
  getShortcutKey p = getShortcutKey (asPartial b) ->
  exec (unregister p) (exec (register b) w) = w.
Proof.
  intros Hn Hp. unfold exec. rewrite unregister_eq, register_eq. simpl.
  rewrite Hp, JsMap_delete_set_absent by assumption.
  apply world_eta.
Qed.

Lemma register_unregister_roundtrip_witness :
  let b := mkShortcutAction (Some "Q") (Some true) None None None "Quit" 9 in
  let p := Partial.mk (Some "q") (Some true) None None None None None in
  JsMap.get (shortcuts (this mounted)) (getShortcutKey (asPartial b)) = None
  /\ getShortcutKey p = getShortcutKey (asPartial b)
  /\ exec (unregister p) (exec (register b) mounted) = mounted.
Proof.
  intros b p.
  assert (N : JsMap.get (shortcuts (this mounted)) (getShortcutKey (asPartial b)) = None)
    by reflexivity.
  assert (E : getShortcutKey p = getShortcutKey (asPartial b)) by reflexivity.
  split; [exact N|]. split; [exact E|].
  exact (register_unregister_roundtrip b p mounted N E).
Defined.

(** X5.  [unregister] does not bring back what a registration replaced:
    when a combination was bound, registering another binding under it and
    unregistering leaves the combination unbound, the registry one entry
    shorter than before, and a key event of that combination without
    effect. *)
Theorem unregister_does_not_restore {host : HostStrings}
    (b0 b : ShortcutAction) (w : World) (event : KeyboardEvent.t) :
  Reachable w ->
  JsMap.get (shortcuts (this w)) (getShortcutKey (asPartial b)) = Some b0 ->
  getShortcutKey (eventCombination event) = getShortcutKey (asPartial b) ->
  let w' := exec (unregister (asPartial b)) (exec (register b) w) in
  JsMap.get (shortcuts (this w')) (getShortcutKey (asPartial b)) = None
  /\ S (JsMap.size (shortcuts (this w'))) = JsMap.size (shortcuts (this w))
  /\ handleKeyDown event w' = (Normal tt, w').
Proof.
  intros Hr Hb He w'.
  assert (Hwf : registryWf (shortcuts (this (exec (register b) w)))).
  { apply (run_registryWf (OpRegister b)). now destruct (Reachable_wf w Hr). }
  assert (Hin : In (getShortcutKey (asPartial b)) (JsMap.keys (shortcuts (this w)))).
  { destruct (in_dec string_dec (getShortcutKey (asPartial b))
                     (JsMap.keys (shortcuts (this w)))) as [H | H]; [exact H|].
    apply JsMapFacts.get_None_notin in H. congruence. }
  assert (G : JsMap.get (shortcuts (this w')) (getShortcutKey (asPartial b)) = None).
  { subst w'. unfold exec at 1. rewrite unregister_eq. simpl.
    apply JsMapFacts.get_delete_same. apply Hwf. }
  split; [exact G|]. split.
  - subst w'. unfold exec. rewrite unregister_eq, register_eq. simpl.
    rewrite (JsMapFacts.size_delete_present _ _ b).
    + now apply JsMapFacts.size_set_present.
    + apply JsMapFacts.get_set_same.
  - apply handleKeyDown_absent. now rewrite He.
Qed.

Lemma unregister_does_not_restore_witness :
  let b := DEFAULT_SHORTCUTS.NEW_CHAT 9 in
  let event := KeyboardEvent.mk "n" true false false false page in
  let w' := exec (unregister (asPartial b)) (exec (register b) mounted) in
  Reachable mounted
  /\ JsMap.get (shortcuts (this mounted)) (getShortcutKey (asPartial b))
     = Some (DEFAULT_SHORTCUTS.NEW_CHAT 3)
  /\ getShortcutKey (eventCombination event) = getShortcutKey (asPartial b)
  /\ JsMap.get (shortcuts (this w')) (getShortcutKey (asPartial b)) = None
  /\ S (JsMap.size (shortcuts (this w'))) = JsMap.size (shortcuts (this mounted))
  /\ handleKeyDown event w' = (Normal tt, w').
Proof.
  intros b event w'.
  assert (G : JsMap.get (shortcuts (this mounted)) (getShortcutKey (asPartial b))
              = Some (DEFAULT_SHORTCUTS.NEW_CHAT 3)) by reflexivity.
  assert (E : getShortcutKey (eventCombination event) = getShortcutKey (asPartial b))
    by reflexivity.
  split; [exact mounted_reachable|]. split; [exact G|]. split; [exact E|].
  exact (unregister_does_not_restore _ b mounted event mounted_reachable G E).
Defined.

(** X6.  In every reachable state a second [unregister] of the same
    combination changes nothing. *)
Theorem unregister_idempotent {host : HostStrings} (p : Partial.t) (w : World) :
  Reachable w ->
  unregister p (exec (unregister p) w) = (Normal tt, exec (unregister p) w).
Proof.
  intros Hr.
  assert (Hwf : registryWf (shortcuts (this w))) by now destruct (Reachable_wf w Hr).
  rewrite unregister_eq at 1. rewrite JsMapFacts.delete_absent.
  - now rewrite world_eta.
  - unfold exec. rewrite unregister_eq. simpl.
    apply JsMapFacts.get_delete_same. apply Hwf.
Qed.

Lemma unregister_idempotent_witness :
  let p := Partial.mk (Some "/") None None None None None None in
  let w' := exec (unregister p) mounted in
  Reachable mounted
  /\ JsMap.size (shortcuts (this w')) = 5
  /\ unregister p w' = (Normal tt, w').
Proof.
  intros p w'.
  split; [exact mounted_reachable|]. split; [reflexivity|].
  exact (unregister_idempotent p mounted mounted_reachable).
Defined.

(* ================================================================== *)
(** ** More on listening and delivery *)

Lemma logs_logs a b w : logs a (logs b w) = logs (b ++ a) w.
Proof. unfold logs; simpl. now rewrite app_assoc. Qed.

Lemma handlerCalls_logs {host : HostStrings} event cs w :
  handlerCalls event (logs cs w) = handlerCalls event w.
Proof. reflexivity. Qed.

Lemma handleKeyDown_calls {host : HostStrings} event w :
  handleKeyDown event w = (Normal tt, logs (handlerCalls event w) w).
Proof.
  unfold handlerCalls.
  destruct (isEditableTarget (KeyboardEvent.target event)) eqn:E.
  - rewrite logs_nil. now apply handleKeyDown_editable.
  - destruct (JsMap.get (shortcuts (this w)) (getShortcutKey (eventCombination event))) eqn:G.
    + now apply handleKeyDown_found.
    + rewrite logs_nil. now apply handleKeyDown_absent.
Qed.

Lemma times_calls {host : HostStrings} event n w :
  times n (handleKeyDown event) w =
  (Normal tt, logs (concat (repeat (handlerCalls event w) n)) w).
Proof.
  revert w. induction n as [|n IH]; intros w; simpl.
  - now rewrite logs_nil.
  - unfold bind. rewrite handleKeyDown_calls, IH, handlerCalls_logs.
    now rewrite logs_logs.
Qed.

Lemma dispatchEvent_calls {host : HostStrings} (event : KeyboardEvent.t) (w : World) :
  dispatchEvent event w =
  (Normal tt, logs (concat (repeat (handlerCalls event w) (attached w))) w).
Proof.
  unfold dispatchEvent. rewrite call_listeners_times. apply times_calls.
Qed.


(** X8.  A manager that is not listening (not started yet, or stopped)
    ignores every key event, bound or not. *)
Theorem no_dispatch_unless_listening {host : HostStrings}
    (event : KeyboardEvent.t) (w : World) :
  Reachable w ->
  isListening (this w) = false ->
  dispatchEvent event w = (Normal tt, w).
Proof.
  intros Hr Hl. destruct (Reachable_wf w Hr) as [_ Hw].
  unfold listeningWf in Hw. rewrite Hl in Hw.
  now apply dispatchEvent_detached.
Qed.

Lemma no_dispatch_unless_listening_witness :
  let w := exec stopListening mounted in
  Reachable w
  /\ isListening (this w) = false
  /\ JsMap.get (shortcuts (this w)) (getShortcutKey (eventCombination (ctrl_shift_S page)))
     = Some (DEFAULT_SHORTCUTS.SELECT_REGION 2)
  /\ dispatchEvent (ctrl_shift_S page) w = (Normal tt, w).
Proof.
  intros w.
  assert (R : Reachable w) by exact (Reachable_run OpStopListening _ mounted_reachable).
  assert (L : isListening (this w) = false) by reflexivity.
  split; [exact R|]. split; [exact L|]. split; [reflexivity|].
  exact (no_dispatch_unless_listening (ctrl_shift_S page) w R L).
Defined.

(** X9.  Whatever the world, a delivered key event calls no handler but the
    one bound, at that moment, to the event's canonical key, and none at all
    on an editable target. *)
Theorem only_bound_handlers_called {host : HostStrings}
    (event : KeyboardEvent.t) (w : World) (h : Handler) :
  In (CallAction h) (newCalls w (exec (dispatchEvent event) w)) ->
  ~ editableSurface (KeyboardEvent.target event)
  /\ exists b,
      JsMap.get (shortcuts (this w)) (getShortcutKey (eventCombination event)) = Some b
      /\ action b = h.
Proof.
  unfold exec. rewrite dispatchEvent_calls. simpl. rewrite newCalls_logs.
  intros Hin. apply in_concat in Hin as (cs & Hcs & Hin).
  apply repeat_spec in Hcs. subst cs. unfold handlerCalls in Hin.
  destruct (isEditableTarget (KeyboardEvent.target event)) eqn:E; [contradiction|].
  split.
  - intros He. apply isEditableTarget_true in He. congruence.
  - destruct (JsMap.get (shortcuts (this w)) (getShortcutKey (eventCombination event)))
      as [b|]; [|contradiction].
    exists b. split; [reflexivity|].
    destruct Hin as [H | [H | [H | []]]]; try discriminate. now injection H.
Qed.

Lemma only_bound_handlers_called_witness :
  In (CallAction 2) (newCalls mounted (exec (dispatchEvent (ctrl_shift_S page)) mounted))
  /\ ~ editableSurface (KeyboardEvent.target (ctrl_shift_S page))
  /\ exists b,
      JsMap.get (shortcuts (this mounted))
                (getShortcutKey (eventCombination (ctrl_shift_S page))) = Some b
      /\ action b = 2.
Proof.
  assert (I : In (CallAction 2)
                 (newCalls mounted (exec (dispatchEvent (ctrl_shift_S page)) mounted)))
    by (right; right; left; reflexivity).
  split; [exact I|].
  exact (only_bound_handlers_called (ctrl_shift_S page) mounted 2 I).
Defined.

Lemma remove_first_snoc l ls :
  count_occ Listener_eq_dec ls l = 0 -> remove_first l (ls ++ [l]) = ls.
Proof.
  induction ls as [|x r IH]; simpl.
  - intros _. destruct (Listener_eq_dec l l); [reflexivity | contradiction].
  - destruct (Listener_eq_dec x l) as [->|Hne]; [discriminate|].
    intros H. now rewrite IH.
Qed.

(** X10.  Starting and then stopping a manager that was not listening
    restores the world: the listeners of the document are the same, in the
    same order, the registry is untouched, and the log has grown by one
    attach and one detach. *)
Theorem start_stop_roundtrip {host : HostStrings} (w : World) :
  Reachable w ->
  isListening (this w) = false ->
  exec stopListening (exec startListening w)
  = logs [AddEventListener BoundHandleKeyDown; RemoveEventListener BoundHandleKeyDown] w.
Proof.
  intros Hr Hl. destruct (Reachable_wf w Hr) as [_ Hw].
  unfold listeningWf, attached in Hw. rewrite Hl in Hw.
  unfold exec. rewrite (startListening_off w Hl). cbn [snd].
  rewrite stopListening_on by reflexivity. simpl.
  destruct (in_dec Listener_eq_dec BoundHandleKeyDown (keydownListeners w)) as [Hin | Hnin].
  - apply (count_occ_In Listener_eq_dec) in Hin. lia.
  - rewrite remove_first_snoc by assumption.
    destruct w as [[m l] ls pf cs]. simpl in *. subst l.
    unfold logs. simpl. now rewrite <- app_assoc.
Qed.

Lemma start_stop_roundtrip_witness :
  let w := newWorld [4; 2] "Linux x86_64" in
  Reachable w
  /\ isListening (this w) = false
  /\ keydownListeners (exec startListening w) = [Foreign 4; Foreign 2; BoundHandleKeyDown]
  /\ exec stopListening (exec startListening w)
     = logs [AddEventListener BoundHandleKeyDown; RemoveEventListener BoundHandleKeyDown] w.
Proof.
  intros w.
  assert (R : Reachable (host := basic_latin_host) w) by apply Reachable_new.
  assert (L : isListening (this w) = false) by reflexivity.
  split; [exact R|]. split; [exact L|]. split; [reflexivity|].
  exact (start_stop_roundtrip w R L).
Defined.

Lemma filter_remove_first_bound ls :
  filter isForeign (remove_first BoundHandleKeyDown ls) = filter isForeign ls.
Proof.
  induction ls as [|x r IH]; simpl; [reflexivity|].
  destruct (Listener_eq_dec x BoundHandleKeyDown) as [->|Hne]; [reflexivity|].
  simpl. now rewrite IH.
Qed.

(** X11.  No operation of the manager adds, removes or reorders a keydown
    listener of other code, and none changes the platform the navigator
    reports. *)
Theorem foreign_listeners_untouched {host : HostStrings} (o : Op) (w : World) :
  filter isForeign (keydownListeners (exec (run o) w))
  = filter isForeign (keydownListeners w)
  /\ navigatorPlatform (exec (run o) w) = navigatorPlatform w.
Proof.
  destruct o; unfold exec, run.
  - now rewrite register_eq.
  - now rewrite unregister_eq.
  - destruct (isListening (this w)) eqn:L.
    + now rewrite startListening_on.
    + rewrite startListening_off by assumption. simpl. split; [|reflexivity].
      destruct (in_dec Listener_eq_dec BoundHandleKeyDown (keydownListeners w));
        [reflexivity|].
      rewrite filter_app. simpl. apply app_nil_r.
  - destruct (isListening (this w)) eqn:L.
    + rewrite stopListening_on by assumption. simpl. split; [|reflexivity].
      apply filter_remove_first_bound.
    + now rewrite stopListening_off.
  - rewrite dispatchEvent_calls. now simpl.
Qed.

Lemma logRun_app s a b :
  logRun s (a ++ b) = match logRun s a with Some s' => logRun s' b | None => None end.
Proof.
  revert s. induction a as [|c r IH]; intros s; simpl; [reflexivity|].
  destruct (logStep s c); [apply IH | reflexivity].
Qed.

(** X12.  The log of every reachable world follows one protocol: attach
    and detach of the bound listener alternate, starting with an attach;
    event suppression and handler calls occur only while the listener is
    attached, and always as the three calls [preventDefault],
    [stopPropagation], handler, in that order with nothing in between; and
    the listening flag says whether the last attach is still open. *)
Theorem log_protocol {host : HostStrings} (w : World) :
  Reachable w ->
  logRun (false, Ready) (hostCalls w) = Some (isListening (this w), Ready).
Proof.
  induction 1 as [others platform | o w Hr IH]; [reflexivity|].
  destruct (Reachable_wf w Hr) as [_ Hw]. unfold listeningWf in Hw.
  destruct o; unfold exec, run.
  - now rewrite register_eq.
  - now rewrite unregister_eq.
  - destruct (isListening (this w)) eqn:L.
    + rewrite startListening_on by assumption. simpl. now rewrite L.
    + rewrite startListening_off by assumption. simpl.
      rewrite logRun_app, IH. reflexivity.
  - destruct (isListening (this w)) eqn:L.
    + rewrite stopListening_on by assumption. simpl.
      rewrite logRun_app, IH. reflexivity.
    + rewrite stopListening_off by assumption. simpl. now rewrite L.
  - rewrite dispatchEvent_calls. simpl. rewrite logRun_app, IH, Hw.
    destruct (isListening (this w)); simpl; [|reflexivity].
    rewrite app_nil_r. unfold handlerCalls.
    destruct (isEditableTarget (KeyboardEvent.target event)); [reflexivity|].
    destruct (JsMap.get (shortcuts (this w)) (getShortcutKey (eventCombination event)));
      reflexivity.
Qed.

Lemma log_protocol_witness :
  let w := exec (dispatchEvent (ctrl_shift_S page)) mounted in
  Reachable w
  /\ hostCalls w = [AddEventListener BoundHandleKeyDown;
                    PreventDefault; StopPropagation; CallAction 2]
  /\ logRun (false, Ready) (hostCalls w) = Some (isListening (this w), Ready).
Proof.
  intros w.
  assert (R : Reachable w)
    by exact (Reachable_run (OpKeyDown (ctrl_shift_S page)) _ mounted_reachable).
  split; [exact R|]. split; [reflexivity|].
  exact (log_protocol w R).
Defined.

(* ================================================================== *)
(** ** More on the canonical key and the display format *)

Lemma string_append_assoc (a b c : string) : ((a ++ b) ++ c = a ++ (b ++ c))%string.
Proof. induction a as [|x a IH]; simpl; [reflexivity | now rewrite IH]. Qed.

Lemma string_length_append (a b : string) :
  String.length (a ++ b) = String.length a + String.length b.
Proof. induction a as [|x a IH]; simpl; [reflexivity | now rewrite IH]. Qed.

Lemma string_append_cancel_r (a b c : string) : (a ++ c = b ++ c)%string -> a = b.
Proof.
  revert b. induction a as [|x a IH]; intros [|y b] H; simpl in H.
  - reflexivity.
  - apply (f_equal String.length) in H. simpl in H.
    rewrite string_length_append in H. lia.
  - apply (f_equal String.length) in H. simpl in H.
    rewrite string_length_append in H. lia.
  - injection H as -> H. f_equal. now apply IH.
Qed.

Lemma join_snoc sep (parts : list string) (x : string) :
  join sep (parts ++ [x]) = (lead sep parts ++ x)%string.
Proof.
  unfold join. induction parts as [|a r IH]; [reflexivity|].
  simpl lead. rewrite !string_append_assoc, <- IH.
  destruct r; reflexivity.
Qed.

Lemma modifierNames_inj c a s m c' a' s' m' :
  lead "+" (modifierNames c a s m) = lead "+" (modifierNames c' a' s' m') ->
  c = c' /\ a = a' /\ s = s' /\ m = m'.
Proof.
  destruct c, a, s, m, c', a', s', m'; simpl; intros H;
    first [ discriminate H | repeat split ].
Qed.

Lemma getShortcutKey_modifiers {host : HostStrings} (p q : Partial.t) (k k' : string) :
  Partial.key p = Some k -> Partial.key q = Some k' ->
  k <> "" -> k' <> "" ->
  toLowerCase k = toLowerCase k' ->
  getShortcutKey p = getShortcutKey q ->
  truthy_flag (Partial.ctrlKey p) = truthy_flag (Partial.ctrlKey q)
  /\ truthy_flag (Partial.altKey p) = truthy_flag (Partial.altKey q)
  /\ truthy_flag (Partial.shiftKey p) = truthy_flag (Partial.shiftKey q)
  /\ truthy_flag (Partial.metaKey p) = truthy_flag (Partial.metaKey q).
Proof.
  intros Hp Hq Hk Hk' Hl H.
  rewrite (getShortcutKey_keyed p k Hp Hk), (getShortcutKey_keyed q k' Hq Hk') in H.
  unfold canonicalKey_stated in H. rewrite !join_snoc, Hl in H.
  apply string_append_cancel_r in H. now apply modifierNames_inj.
Qed.

(** X13.  With the same primary key up to case, two combinations have the
    same canonical key exactly when they agree on which of control, alt,
    shift and meta are set ([undefined] counting as [false]).  So a
    shortcut fires only when the event holds exactly its modifiers: one
    more or one fewer and the lookup misses. *)
Theorem modifiers_match_exactly {host : HostStrings} (p q : Partial.t) (k k' : string) :
  Partial.key p = Some k -> Partial.key q = Some k' ->
  k <> "" -> k' <> "" ->
  toLowerCase k = toLowerCase k' ->
  (getShortcutKey p = getShortcutKey q
   <-> truthy_flag (Partial.ctrlKey p) = truthy_flag (Partial.ctrlKey q)
       /\ truthy_flag (Partial.altKey p) = truthy_flag (Partial.altKey q)
       /\ truthy_flag (Partial.shiftKey p) = truthy_flag (Partial.shiftKey q)
       /\ truthy_flag (Partial.metaKey p) = truthy_flag (Partial.metaKey q)).
Proof.
  intros Hp Hq Hk Hk' Hl. split.
  - now apply (getShortcutKey_modifiers p q k k').
  - intros (Hc & Ha & Hs & Hm).
    rewrite (getShortcutKey_keyed p k Hp Hk), (getShortcutKey_keyed q k' Hq Hk').
    unfold canonicalKey_stated. now rewrite Hc, Ha, Hs, Hm, Hl.
Qed.

Lemma modifiers_match_exactly_witness :
  let binding := asPartial (DEFAULT_SHORTCUTS.TAKE_SCREENSHOT 1) in
  let held := eventCombination (ctrl_shift_S page) in
  let plain := eventCombination (KeyboardEvent.mk "S" true false false false page) in
  Partial.key binding = Some "s" /\ Partial.key held = Some "S"
  /\ "s" <> "" /\ "S" <> "" /\ toLowerCase "s" = toLowerCase "S"
  /\ getShortcutKey binding <> getShortcutKey held
  /\ getShortcutKey binding = getShortcutKey plain.
Proof.
  intros binding held plain.
  assert (N1 : "s" <> "") by discriminate.
  assert (N2 : "S" <> "") by discriminate.
  assert (L : toLowerCase "s" = toLowerCase "S") by reflexivity.
  split; [reflexivity|]. split; [reflexivity|]. split; [exact N1|].
  split; [exact N2|]. split; [exact L|].
  split.
  - intros H.
    apply (modifiers_match_exactly binding held "s" "S" eq_refl eq_refl N1 N2 L) in H.
    destruct H as (_ & _ & H & _). discriminate H.
  - apply (modifiers_match_exactly binding plain "s" "S" eq_refl eq_refl N1 N2 L).
    repeat split.
Defined.

(** X14.  [formatShortcut] throws a [TypeError] exactly when the binding
    has no [key] field, and otherwise returns a label; either way it leaves
    the world as it was.  So a binding that [register] accepted without a
    key cannot be displayed. *)
Theorem formatShortcut_throws_iff_no_key {host : HostStrings}
    (b : ShortcutAction) (w : World) :
  (completion (formatShortcut b) w = Throw TypeError <-> key b = None)
  /\ (key b <> None -> exists label, completion (formatShortcut b) w = Normal label)
  /\ exec (formatShortcut b) w = w.
Proof.
  destruct (key b) as [k|] eqn:K.
  - unfold completion, exec. rewrite (formatShortcut_label b k w K). simpl.
    split; [split; discriminate|]. split; [eauto | reflexivity].
  - unfold completion, exec, formatShortcut, navigator_platform, bind. rewrite K. simpl.
    split; [tauto|]. split; [congruence | reflexivity].
Qed.

Lemma formatShortcut_throws_iff_no_key_witness :
  let keyless := mkShortcutAction None (Some true) None None None "No key" 3 in
  let w := exec (register keyless) mounted in
  JsMap.get (shortcuts (this w)) "ctrl" = Some keyless
  /\ completion (formatShortcut keyless) w = Throw TypeError
  /\ exists label,
      completion (formatShortcut (DEFAULT_SHORTCUTS.ESCAPE 5)) w = Normal label.
Proof.
  intros keyless w.
  split; [reflexivity|].
  split.
  - apply (formatShortcut_throws_iff_no_key keyless w). reflexivity.
  - apply (formatShortcut_throws_iff_no_key (DEFAULT_SHORTCUTS.ESCAPE 5) w). discriminate.
Defined.

(** X15.  A binding whose key is the empty string is displayed with an
    empty key part: the label is the modifier labels with, off macOS, a
    separator after each of them.  The canonical key of the same binding is
    the modifier names with a separator between them only: the two
    renderings disagree on the trailing separator. *)
Theorem formatShortcut_empty_key {host : HostStrings} (b : ShortcutAction) (w : World) :
  key b = Some "" ->
  let isMac := macLike (navigatorPlatform w) in
  let labels := modifierLabels isMac (truthy_flag (ctrlKey b)) (truthy_flag (altKey b))
                               (truthy_flag (shiftKey b)) (truthy_flag (metaKey b)) in
  completion (formatShortcut b) w = Normal (lead (if isMac then "" else "+") labels)
  /\ getShortcutKey (asPartial b)
     = join "+" (modifierNames (truthy_flag (ctrlKey b)) (truthy_flag (altKey b))
                               (truthy_flag (shiftKey b)) (truthy_flag (metaKey b))).
Proof.
  intros K isMac labels. split.
  - unfold completion. rewrite (formatShortcut_label b "" w K). simpl.
    unfold displayLabel. fold isMac. fold labels.
    rewrite join_snoc. unfold keyGlyph. host_eval. simpl. f_equal.
    generalize (lead (if isMac then "" else "+") labels) as s.
    induction s as [|x s IH]; simpl; [reflexivity | now rewrite IH].
  - apply (getShortcutKey_unkeyed (asPartial b)). simpl. now rewrite K.
Qed.

Lemma formatShortcut_empty_key_witness :
  let b := mkShortcutAction (Some "") (Some true) None (Some true) None "Empty" 1 in
  key b = Some ""
  /\ completion (formatShortcut b) mounted = Normal "Ctrl+Shift+"
  /\ getShortcutKey (asPartial b) = "ctrl+shift".
Proof.
  intros b.
  assert (K : key b = Some "") by reflexivity.
  split; [exact K|].
  exact (formatShortcut_empty_key b mounted K).
Defined.

(** X16.  On a macOS-like platform the label does not tell meta apart: two
    bindings with the same non-empty key that differ only in the meta flag
    are different shortcuts (their canonical keys differ, both can be
    registered) and are displayed by the same label. *)
Theorem mac_label_hides_meta {host : HostStrings}
    (k : string) (c a s : option bool) (d d' : string) (h h' : Handler) (w : World) :
  k <> "" ->
  macLike (navigatorPlatform w) = true ->
  let withMeta := mkShortcutAction (Some k) c a s (Some true) d h in
  let without := mkShortcutAction (Some k) c a s None d' h' in
  getShortcutKey (asPartial withMeta) <> getShortcutKey (asPartial without)
  /\ completion (formatShortcut withMeta) w = completion (formatShortcut without) w.
Proof.
  intros Hk Hmac withMeta without. split.
  - intros H.
    apply (getShortcutKey_modifiers (asPartial withMeta) (asPartial without) k k
             eq_refl eq_refl Hk Hk eq_refl) in H.
    destruct H as (_ & _ & _ & H). discriminate H.
  - unfold completion.
    rewrite (formatShortcut_label withMeta k w eq_refl),
      (formatShortcut_label without k w eq_refl).
    simpl. now rewrite Hmac.
Qed.

Lemma mac_label_hides_meta_witness :
  let w := newWorld [] "MacIntel" in
  let withMeta := mkShortcutAction (Some "s") (Some true) None None (Some true) "a" 1 in
  let without := mkShortcutAction (Some "s") (Some true) None None None "b" 2 in
  "s" <> "" /\ macLike (navigatorPlatform w) = true
  /\ getShortcutKey (asPartial withMeta) = "ctrl+meta+s"
  /\ getShortcutKey (asPartial without) = "ctrl+s"
  /\ getShortcutKey (asPartial withMeta) <> getShortcutKey (asPartial without)
  /\ completion (formatShortcut withMeta) w = Normal "⌘S"
  /\ completion (formatShortcut withMeta) w = completion (formatShortcut without) w.
Proof.
  intros w withMeta without.
  assert (N : "s" <> "") by discriminate.
  assert (A : macLike (navigatorPlatform w) = true) by reflexivity.
  split; [exact N|]. split; [exact A|].
  split; [reflexivity|]. split; [reflexivity|].
  destruct (mac_label_hides_meta "s" (Some true) None None "a" "b" 1 2 w N A) as [H1 H2].
  split; [exact H1|]. split; [reflexivity | exact H2].
Defined.

(* ================================================================== *)
(** ** The main component mounts, is destroyed, mounts again *)

Lemma forEach_register {host : HostStrings} (l : list ShortcutAction) (w : World) :
  forEach register l w =
  (Normal tt,
   mkWorld (mkManager (fold_left (fun m b => JsMap.set m (getShortcutKey (asPartial b)) b)
                                 l (shortcuts (this w)))
                      (isListening (this w)))
           (keydownListeners w) (navigatorPlatform w) (hostCalls w)).
Proof.
  revert w. induction l as [|b r IH]; intros w; simpl.
  - now rewrite world_eta.
  - unfold bind. rewrite register_eq, IH. reflexivity.
Qed.

Lemma Reachable_forEach_register {host : HostStrings} (l : list ShortcutAction) (w : World) :
  Reachable w -> Reachable (exec (forEach register l) w).
Proof.
  revert w. induction l as [|b r IH]; intros w Hr.
  - unfold exec. simpl. exact Hr.
  - assert (E : exec (forEach register (b :: r)) w
                = exec (forEach register r) (exec (run (OpRegister b)) w)).
    { unfold exec. simpl. unfold bind. now rewrite register_eq. }
    rewrite E. apply IH. now apply Reachable_run.
Qed.

Lemma Reachable_setup {host : HostStrings} h1 h2 h3 h4 h5 h6 (w : World) :
  Reachable w -> Reachable (exec (setupKeyboardShortcutsWith h1 h2 h3 h4 h5 h6) w).
Proof.
  intros Hr.
  assert (E : exec (setupKeyboardShortcutsWith h1 h2 h3 h4 h5 h6) w
              = exec (run OpStartListening)
                     (exec (forEach register (mountShortcuts h1 h2 h3 h4 h5 h6)) w)).
  { unfold exec, setupKeyboardShortcutsWith, bind. now rewrite forEach_register. }
  rewrite E. now apply Reachable_run, Reachable_forEach_register.
Qed.

Lemma mount_keys {host : HostStrings} h1 h2 h3 h4 h5 h6 :
  map (fun b => getShortcutKey (asPartial b)) (mountShortcuts h1 h2 h3 h4 h5 h6)
  = ["ctrl+s"; "ctrl+shift+s"; "ctrl+n"; "/"; "escape"; "ctrl+b"].
Proof.
  unfold mountShortcuts. simpl map.
  rewrite !getShortcutKey_parts. simpl. unfold keyPart. simpl.
  now host_eval.
Qed.

Lemma mount_registry {host : HostStrings} h1 h2 h3 h4 h5 h6 (m : JsMap.t ShortcutAction) :
  m = [] \/ JsMap.keys m = ["ctrl+s"; "ctrl+shift+s"; "ctrl+n"; "/"; "escape"; "ctrl+b"] ->
  JsMap.values
    (fold_left (fun m b => JsMap.set m (getShortcutKey (asPartial b)) b)
               (mountShortcuts h1 h2 h3 h4 h5 h6) m)
  = mountShortcuts h1 h2 h3 h4 h5 h6
  /\ JsMap.keys
       (fold_left (fun m b => JsMap.set m (getShortcutKey (asPartial b)) b)
                  (mountShortcuts h1 h2 h3 h4 h5 h6) m)
     = ["ctrl+s"; "ctrl+shift+s"; "ctrl+n"; "/"; "escape"; "ctrl+b"].
Proof.
  intros Hm. pose proof (mount_keys h1 h2 h3 h4 h5 h6) as K.
  unfold mountShortcuts in *. cbn [map] in K.
  assert (K1 := f_equal (fun l => nth 0 l "") K).
  assert (K2 := f_equal (fun l => nth 1 l "") K).
  assert (K3 := f_equal (fun l => nth 2 l "") K).
  assert (K4 := f_equal (fun l => nth 3 l "") K).
  assert (K5 := f_equal (fun l => nth 4 l "") K).
  assert (K6 := f_equal (fun l => nth 5 l "") K).
  cbn [nth] in K1, K2, K3, K4, K5, K6. clear K.
  cbn [fold_left]. rewrite K1, K2, K3, K4, K5, K6.
  destruct Hm as [-> | Hm]; [split; reflexivity|].
  destruct m as [|[k1 v1] [|[k2 v2] [|[k3 v3] [|[k4 v4] [|[k5 v5] [|[k6 v6] [|? ?]]]]]]];
    try discriminate Hm.
  injection Hm as -> -> -> -> -> ->. split; reflexivity.
Qed.

Lemma setup_from_stopped {host : HostStrings} h1 h2 h3 h4 h5 h6 (w : World) :
  isListening (this w) = false ->
  let w' := exec (setupKeyboardShortcutsWith h1 h2 h3 h4 h5 h6) w in
  shortcuts (this w')
  = fold_left (fun m b => JsMap.set m (getShortcutKey (asPartial b)) b)
              (mountShortcuts h1 h2 h3 h4 h5 h6) (shortcuts (this w))
  /\ isListening (this w') = true
  /\ hostCalls w' = hostCalls w ++ [AddEventListener BoundHandleKeyDown].
Proof.
  intros Hl w'. subst w'.
  unfold exec, setupKeyboardShortcutsWith, bind. rewrite forEach_register.
  rewrite startListening_off by exact Hl. simpl. repeat split.
Qed.

(** X17.  The main component registers six shortcuts and starts listening;
    destroying it stops listening and leaves the six registered.  Mounted
    again with new closures, the global manager holds six bindings again,
    in the same order, every one with the closure of the second mount (no
    handler of the destroyed component can be called any more), and its
    listener is attached once: over the two mounts the document was asked
    to attach, detach and attach. *)
Theorem remount_replaces_handlers {host : HostStrings}
    (others : list nat) (platform : string)
    (h1 h2 h3 h4 h5 h6 g1 g2 g3 g4 g5 g6 : Handler) :
  let w1 := exec (setupKeyboardShortcutsWith h1 h2 h3 h4 h5 h6) (newWorld others platform) in
  let w2 := exec onDestroy w1 in
  let w3 := exec (setupKeyboardShortcutsWith g1 g2 g3 g4 g5 g6) w2 in
  getShortcuts w1 = (Normal (mountShortcuts h1 h2 h3 h4 h5 h6), w1)
  /\ getShortcuts w2 = (Normal (mountShortcuts h1 h2 h3 h4 h5 h6), w2)
  /\ isListening (this w2) = false
  /\ getShortcuts w3 = (Normal (mountShortcuts g1 g2 g3 g4 g5 g6), w3)
  /\ isListening (this w3) = true
  /\ attached w3 = 1
  /\ hostCalls w3 = [AddEventListener BoundHandleKeyDown;
                     RemoveEventListener BoundHandleKeyDown;
                     AddEventListener BoundHandleKeyDown].
Proof.
  intros w1 w2 w3.
  destruct (setup_from_stopped h1 h2 h3 h4 h5 h6 (newWorld others platform) eq_refl)
    as (S1 & L1 & C1).
  fold w1 in S1, L1, C1.
  change (shortcuts (this (newWorld others platform)))
    with (@nil (string * ShortcutAction)) in S1.
  change (hostCalls (newWorld others platform)) with (@nil HostCall) in C1.
  destruct (mount_registry h1 h2 h3 h4 h5 h6 [] (or_introl eq_refl)) as [V1 K1].
  rewrite <- S1 in V1, K1.
  assert (E2 : w2 = mkWorld (mkManager (shortcuts (this w1)) false)
                            (remove_first BoundHandleKeyDown (keydownListeners w1))
                            (navigatorPlatform w1)
                            (hostCalls w1 ++ [RemoveEventListener BoundHandleKeyDown])).
  { subst w2. unfold exec, onDestroy. now rewrite stopListening_on. }
  assert (L2 : isListening (this w2) = false) by now rewrite E2.
  assert (S2 : shortcuts (this w2) = shortcuts (this w1)) by now rewrite E2.
  assert (C2 : hostCalls w2 = hostCalls w1 ++ [RemoveEventListener BoundHandleKeyDown])
    by now rewrite E2.
  destruct (setup_from_stopped g1 g2 g3 g4 g5 g6 w2 L2) as (S3 & L3 & C3).
  fold w3 in S3, L3, C3.
  destruct (mount_registry g1 g2 g3 g4 g5 g6 (shortcuts (this w2))) as [V3 _].
  { right. now rewrite S2. }
  rewrite <- S3 in V3.
  assert (R3 : Reachable w3).
  { subst w3 w2 w1. apply Reachable_setup.
    apply (Reachable_run OpStopListening). apply Reachable_setup. apply Reachable_new. }
  split; [unfold getShortcuts, get_shortcuts, bind, ret; now rewrite V1|].
  split; [unfold getShortcuts, get_shortcuts, bind, ret; now rewrite S2, V1|].
  split; [exact L2|].
  split; [unfold getShortcuts, get_shortcuts, bind, ret; now rewrite V3|].
  split; [exact L3|].
  split.
  - destruct (Reachable_wf w3 R3) as [_ Hw]. unfold listeningWf in Hw. now rewrite L3 in Hw.
  - now rewrite C3, C2, C1.
Qed.

(** The mount used in the examples is the component's, with its closures
    numbered from one. *)
Lemma setupKeyboardShortcuts_numbered {host : HostStrings} (w : World) :
  setupKeyboardShortcuts w = setupKeyboardShortcutsWith 1 2 3 4 5 6 w.
Proof.
  unfold setupKeyboardShortcuts, setupKeyboardShortcutsWith, mountShortcuts, forEach, bind.
  rewrite !register_eq. cbn [fst snd this shortcuts isListening keydownListeners
                                navigatorPlatform hostCalls ret].
  reflexivity.
Qed.
